(** * node2vec random-walk utilities: a shallow embedding of
      [node2vec/utils.py] and the properties of its alias tables, edge
      bias, sampler, path extension and transport encoding.

    Conventions of the embedding.
    - Node ids and list indices are Python [int]s: [Z].
    - Weights and pseudo-probabilities are Python [float]s.  They are
      embedded as exact rationals [Q]: every arithmetic operation returns
      the exact result, rounding is not modelled.  Numeric equality is
      [Qeq] ([==]); Leibniz equality [=] on tables means that the two
      computations produce the very same data.
    - A raised exception is a value of [exn]; a call returns [result].
    - Python list indexing accepts negative indices and raises
      [IndexError] out of range ([py_getitem], [py_setitem]). *)

From Stdlib Require Import ZArith QArith Lia Lqa.
From stdpp Require Import base option list gmap sets strings.
From Equations Require Import Equations.

Local Open Scope Z_scope.

(** ** Exceptions and results *)

(** The two [ValueError]s of [generate_edge_alias_tables] are told apart
    by their message; the message is kept as data, not rendered. *)
Inductive message :=
  | InvalidNeighborsTuple (nbs : list Z * list Q)
  | ZeroReturnOrInout (return_param inout_param : Q)
  | ArraysLength.

Inductive exn :=
  | ZeroDivisionError
  | IndexError
  | KeyError (key : string)
  | AttributeError (attr : string)
  | ValueError (msg : message)
  | DecodingError
  | IllTyped.

(** [DecodingError] stands for what [base64], [bytes.decode] and [pickle]
    raise on a malformed blob.  [IllTyped] is not a Python exception: it
    marks an input that lies outside the annotated types (a frame column
    of another dtype, a reference to no list), which the embedding leaves
    out. *)

Inductive result (A : Type) :=
  | Ok (a : A)
  | Err (e : exn).
Arguments Ok {A} a.
Arguments Err {A} e.

#[global] Instance result_ret : MRet result := λ A a, Ok a.
#[global] Instance result_bind : MBind result := λ A B k r,
  match r with
  | Ok a => k a
  | Err e => Err e
  end.

(** [[f(x) for x in l]] where [f] may raise: stops at the first error. *)
Fixpoint rmap {A B} (f : A → result B) (l : list A) : result (list B) :=
  match l with
  | [] => Ok []
  | x :: l' => y ← f x; ys ← rmap f l'; Ok (y :: ys)
  end.

(** ** Python numbers and lists *)

(** [x < y] on floats. *)
Definition Qltb (x y : Q) : bool := negb (Qle_bool y x).

(** [x / y]: true division, [ZeroDivisionError] when [y == 0]. *)
Definition py_div (x y : Q) : result Q :=
  if Qeq_bool y 0 then Err ZeroDivisionError else Ok (x / y)%Q.

(** [sum(l)]: starts from [0] and adds from the left. *)
Definition py_sum (l : list Q) : Q := fold_left Qplus l 0%Q.

(** [int(x)]: truncation towards zero. *)
Definition py_int (x : Q) : Z := Z.quot (Qnum x) (Z.pos (Qden x)).

(** [range(n)]. *)
Definition py_range (n : nat) : list Z := Z.of_nat <$> seq 0 n.

(** Position denoted by index [i] in a list of length [n]. *)
Definition py_index (n : nat) (i : Z) : option nat :=
  if bool_decide (0 ≤ i < Z.of_nat n) then Some (Z.to_nat i)
  else if bool_decide (- Z.of_nat n ≤ i < 0) then Some (Z.to_nat (Z.of_nat n + i))
  else None.

(** [l[i]]. *)
Definition py_getitem {A} (l : list A) (i : Z) : result A :=
  match py_index (length l) i with
  | Some k => match l !! k with Some x => Ok x | None => Err IndexError end
  | None => Err IndexError
  end.

(** [l[i] = x]. *)
Definition py_setitem {A} (l : list A) (i : Z) (x : A) : result (list A) :=
  match py_index (length l) i with
  | Some k => Ok (<[k := x]> l)
  | None => Err IndexError
  end.

(** [l.pop()]: removes and returns the last element. *)
Fixpoint list_pop {A} (l : list A) : option (list A * A) :=
  match l with
  | [] => None
  | x :: l' =>
      match list_pop l' with
      | None => Some ([], x)
      | Some (r, y) => Some (x :: r, y)
      end
  end.

(** ** [generate_alias_tables] *)

(** The [for i in range(n)] loop that fills the two worklists. *)
Fixpoint classify (probs : list Q) (idx : list Z) (underfull overfull : list Z)
  : result (list Z * list Z) :=
  match idx with
  | [] => Ok (underfull, overfull)
  | i :: idx' =>
      p ← py_getitem probs i;
      if Qltb p 1 then classify probs idx' (underfull ++ [i]) overfull
      else classify probs idx' underfull (overfull ++ [i])
  end.

(** One pass of the body of the [while] loop, after the two [pop]s.  The
    boolean tells on which worklist [over] is pushed back:
    [true] for [underfull]. *)
Definition pair_step (alias : list Z) (probs : list Q) (under over : Z)
  : result (list Z * list Q * bool) :=
  alias' ← py_setitem alias under over;
  po ← py_getitem probs over;
  pu ← py_getitem probs under;
  probs' ← py_setitem probs over (po + pu - 1)%Q;
  p ← py_getitem probs' over;
  Ok (alias', probs', Qltb p 1).

Lemma list_pop_app {A} (l : list A) r x :
  list_pop l = Some (r, x) → l = r ++ [x].
Proof.
  revert r x. induction l as [|a l IH]; intros r x; simpl; [done|].
  destruct (list_pop l) as [[r' y]|] eqn:E.
  - intros [= <- <-]. by rewrite (IH _ _ eq_refl).
  - intros [= <- <-]. destruct l; [done|]. simpl in E.
    by destruct (list_pop l) as [[??]|].
Qed.


Definition inspect {A} (x : A) : {y : A | x = y} := exist _ x eq_refl.

(** [while underfull and overfull: ...].  Each pass removes one index from
    the two worklists taken together. *)
Equations? pair_loop (alias : list Z) (probs : list Q) (underfull overfull : list Z)
  : result (list Z * list Q)
  by wf (length underfull + length overfull)%nat lt :=
pair_loop alias probs underfull overfull
  with inspect (list_pop underfull), inspect (list_pop overfull) := {
  | exist _ (Some (underfull', under)) Hu, exist _ (Some (overfull', over)) Ho
      with pair_step alias probs under over := {
      | Err e => Err e
      | Ok (alias', probs', true) =>
          pair_loop alias' probs' (underfull' ++ [over]) overfull'
      | Ok (alias', probs', false) =>
          pair_loop alias' probs' underfull' (overfull' ++ [over]) }
  | _, _ => Ok (alias, probs) }.
Proof.
  all: apply list_pop_app in Hu, Ho; subst;
    rewrite ?length_app; simpl; lia.
Qed.

Definition generate_alias_tables (node_weights : list Q)
  : result (list Z * list Q) :=
  let n := length node_weights in
  let alias := replicate n 0 in
  avg_weight ← py_div (py_sum node_weights) (inject_Z (Z.of_nat n));
  probs ← rmap (fun x => py_div x avg_weight) node_weights;
  '(underfull, overfull) ← classify probs (py_range n) [] [];
  pair_loop alias probs underfull overfull.

(** ** [generate_edge_alias_tables] *)

(** A value of the annotated type [Tuple[List[int], List[float]]]. *)
Definition neighbors_tuple : Type := list Z * list Q.

(** [len(nbs)] of such a tuple. *)
Definition tuple_len (nbs : neighbors_tuple) : nat := 2.

(** [for nbs in [src_neighbors, dst_neighbors]: if ...: raise ValueError]. *)
Fixpoint check_neighbors (l : list neighbors_tuple) : result () :=
  match l with
  | [] => Ok ()
  | nbs :: l' =>
      if bool_decide (tuple_len nbs ≠ 2%nat)
         || bool_decide (length nbs.1 ≠ length nbs.2)
      then Err (ValueError (InvalidNeighborsTuple nbs))
      else check_neighbors l'
  end.

(** The loop that applies the bias to the edge weights; [neighbors_dst]
    is the list built so far. *)
Fixpoint bias_loop (src_id : Z) (src_neighbor_ids : gset Z)
    (dst_neighbors : neighbors_tuple) (return_param inout_param : Q)
    (idx : list Z) (neighbors_dst : list Q) : result (list Q) :=
  match idx with
  | [] => Ok neighbors_dst
  | i :: idx' =>
      dst_neighbor_id ← py_getitem dst_neighbors.1 i;
      weight ← py_getitem dst_neighbors.2 i;
      unnorm_prob ←
        (if bool_decide (dst_neighbor_id = src_id) then py_div weight return_param
         else if bool_decide (dst_neighbor_id ∈ src_neighbor_ids) then Ok weight
         else py_div weight inout_param);
      bias_loop src_id src_neighbor_ids dst_neighbors return_param inout_param
        idx' (neighbors_dst ++ [unnorm_prob])
  end.

Definition generate_edge_alias_tables (src_id : Z)
    (src_neighbors dst_neighbors : neighbors_tuple)
    (return_param inout_param : Q) : result (list Z * list Q) :=
  _ ← check_neighbors [src_neighbors; dst_neighbors];
  if Qeq_bool return_param 0 || Qeq_bool inout_param 0
  then Err (ValueError (ZeroReturnOrInout return_param inout_param))
  else
    let src_neighbor_ids : gset Z := list_to_set src_neighbors.1 in
    neighbors_dst ← bias_loop src_id src_neighbor_ids dst_neighbors
                      return_param inout_param
                      (py_range (length dst_neighbors.1)) [];
    generate_alias_tables neighbors_dst.

(** The bias rule in the words of the specification: [weight / p] for the
    node the walk came from, [weight] for a common neighbour, [weight / q]
    for any other node. *)
Definition biased_weight_spec (src_id : Z) (src_ids : list Z) (p q : Q)
    (dst_neighbor_id : Z) (weight : Q) : Q :=
  if bool_decide (dst_neighbor_id = src_id) then (weight / p)%Q
  else if bool_decide (dst_neighbor_id ∈ src_ids) then weight
  else (weight / q)%Q.

(** ** The library calls the classes rely on

    [random], [base64], [pickle] and [pandas] are not part of the
    repository.  The first three are taken through the properties their
    documentation states; the frames of [pandas] are given a small
    concrete model. *)

(** The process-wide generator of the [random] module.
    [random.seed(a)] with an [int] replaces the state by one that depends
    on [a] only; [random.random()] returns a float in [[0, 1)] and
    advances the state. *)
Class RandomSource := {
  rng_state : Type;
  random_seed : Z → rng_state;
  random_random : rng_state → Q * rng_state;
  random_random_range s :
    (0 <= (random_random s).1)%Q ∧ ((random_random s).1 < 1)%Q;
}.

(** [base64.b64encode], [base64.b64decode], [bytes.decode] and
    [str.encode]: the text produced by [b64encode] is ASCII, so decoding
    and encoding it gives the same bytes back. *)
Class Transport := {
  bytes : Type;
  str : Type;
  b64encode : bytes → bytes;
  b64decode : bytes → result bytes;
  bytes_decode : bytes → result str;
  str_encode : str → bytes;
  b64decode_b64encode b : b64decode (b64encode b) = Ok b;
  str_encode_decode b :
    ∃ s, bytes_decode (b64encode b) = Ok s ∧ str_encode s = b64encode b;
}.

(** [pickle.dumps] and [pickle.loads] at the type [T] of the pickled
    value. *)
Class Pickle `{Transport} (T : Type) := {
  pickle_dumps : T → bytes;
  pickle_loads : bytes → result T;
  pickle_loads_dumps v : pickle_loads (pickle_dumps v) = Ok v;
}.

(** A [pandas] column holds the values of one dtype. *)
Inductive column :=
  | IntColumn (l : list Z)
  | FloatColumn (l : list Q).

Definition column_len (c : column) : nat :=
  match c with
  | IntColumn l => length l
  | FloatColumn l => length l
  end.

(** A frame: its named columns, in order. *)
Record DataFrame := { columns : list (string * column) }.

(** [pd.DataFrame({k1: l1, ...})]: all columns must have one length. *)
Definition pd_DataFrame (d : list (string * column)) : result DataFrame :=
  match d with
  | [] => Ok {| columns := [] |}
  | (_, c) :: d' =>
      if forallb (λ kc, Nat.eqb (column_len kc.2) (column_len c)) d'
      then Ok {| columns := d |}
      else Err (ValueError ArraysLength)
  end.

(** [df[key]]. *)
Fixpoint lookup_column (key : string) (d : list (string * column))
  : result column :=
  match d with
  | [] => Err (KeyError key)
  | (k, c) :: d' => if bool_decide (k = key) then Ok c else lookup_column key d'
  end.

Definition df_getitem (df : DataFrame) (key : string) : result column :=
  lookup_column key (columns df).

(** [column.tolist()] at the element type the annotations give to the
    data. *)
Definition tolist_int (c : column) : result (list Z) :=
  match c with
  | IntColumn l => Ok l
  | FloatColumn _ => Err IllTyped
  end.

Definition tolist_float (c : column) : result (list Q) :=
  match c with
  | FloatColumn l => Ok l
  | IntColumn _ => Err IllTyped
  end.

(** The argument of the constructors of [Neighbors] and [AliasProb],
    which branch on its run-time type. *)
Inductive init_arg `{Transport} (T : Type) :=
  | FromStr (s : str)
  | FromFrame (df : DataFrame)
  | FromObj (o : T).
Arguments FromStr {_ T} s.
Arguments FromFrame {_ T} df.
Arguments FromObj {_ T} o.

(** ** The interpreter state: the generator and the mutable path lists *)

Definition loc : Type := positive.

Record world `{RandomSource} := {
  rng : rng_state;
  heap : gmap loc (list Z);
}.

(** A call that reads or changes the state.  The state reached when an
    exception is raised is kept. *)
Definition py `{RandomSource} (A : Type) : Type := world → result A * world.

Section py_monad.
Context `{RandomSource}.

#[global] Instance py_ret : MRet py := λ A a w, (Ok a, w).
#[global] Instance py_bind : MBind py := λ A B k m w,
  match m w with
  | (Ok a, w') => k a w'
  | (Err e, w') => (Err e, w')
  end.

Definition lift {A} (r : result A) : py A := λ w, (r, w).

(** [random.seed(a)]. *)
Definition py_random_seed (a : Z) : py () :=
  λ w, (Ok (), {| rng := random_seed a; heap := heap w |}).

(** [random.random()]. *)
Definition py_random_random : py Q :=
  λ w, let '(r, s) := random_random (rng w) in
       (Ok r, {| rng := s; heap := heap w |}).

(** A new list object. *)
Definition alloc (l : list Z) : py loc :=
  λ w, let ℓ := fresh (dom (heap w)) in
       (Ok ℓ, {| rng := rng w; heap := <[ℓ := l]> (heap w) |}).

(** The content of a list object. *)
Definition read (ℓ : loc) : py (list Z) :=
  λ w, match heap w !! ℓ with
       | Some l => (Ok l, w)
       | None => (Err IllTyped, w)
       end.

(** In-place update of a list object. *)
Definition write (ℓ : loc) (l : list Z) : py () :=
  λ w, (Ok (), {| rng := rng w; heap := <[ℓ := l]> (heap w) |}).

End py_monad.

(** ** class [Neighbors] *)

Module Neighbors.

Record t := { _data : neighbors_tuple }.

Section methods.
Context `{Transport} `{!Pickle (list Z * list Q)}.

Definition __init__ (obj : init_arg neighbors_tuple) : result t :=
  match obj with
  | FromStr s =>
      b ← b64decode (str_encode s);
      d ← pickle_loads b;
      Ok {| _data := d |}
  | FromFrame df =>
      c0 ← df_getitem df "dst";
      l0 ← tolist_int c0;
      c1 ← df_getitem df "weight";
      l1 ← tolist_float c1;
      Ok {| _data := (l0, l1) |}
  | FromObj o => Ok {| _data := o |}
  end.

Definition dst_id (self : t) : list Z := (_data self).1.

Definition dst_wt (self : t) : list Q := (_data self).2.

Definition items (self : t) : list (Z * Q) :=
  zip (_data self).1 (_data self).2.

Definition serialize (self : t) : result str :=
  bytes_decode (b64encode (pickle_dumps (_data self))).

Definition as_pandas (self : t) : result DataFrame :=
  pd_DataFrame [("dst", IntColumn (_data self).1);
                ("weight", FloatColumn (_data self).2)].

End methods.
End Neighbors.

(** ** class [AliasProb] *)

Module AliasProb.

Record t := { _data : list Z * list Q }.

Section methods.
Context `{Transport} `{!Pickle (list Z * list Q)} `{RandomSource}.

Definition __init__ (obj : init_arg (list Z * list Q)) : result t :=
  match obj with
  | FromStr s =>
      b ← b64decode (str_encode s);
      d ← pickle_loads b;
      Ok {| _data := d |}
  | FromFrame df =>
      c0 ← df_getitem df "alias";
      l0 ← tolist_int c0;
      c1 ← df_getitem df "probs";
      l1 ← tolist_float c1;
      Ok {| _data := (l0, l1) |}
  | FromObj o => Ok {| _data := o |}
  end.

Definition alias (self : t) : list Z := (_data self).1.

Definition probs (self : t) : list Q := (_data self).2.

Definition serialize (self : t) : result str :=
  bytes_decode (b64encode (pickle_dumps (_data self))).

Definition draw_alias (self : t) (nbs : Neighbors.t) (seed : option Z) : py Z :=
  _ ← (match seed with
       | Some a => py_random_seed a
       | None => mret ()
       end);
  r ← py_random_random;
  let pick := py_int (r * inject_Z (Z.of_nat (length (alias self))))%Q in
  r' ← py_random_random;
  p ← lift (py_getitem (probs self) pick);
  if Qltb r' p then lift (py_getitem (Neighbors.dst_id nbs) pick)
  else
    a ← lift (py_getitem (alias self) pick);
    lift (py_getitem (Neighbors.dst_id nbs) a).

End methods.
End AliasProb.

(** ** class [RandomPath] *)

Module RandomPath.

(** The object holds a reference to its list. *)
Record t := { _data : loc }.

(** The argument of the constructor: a string, or a list object, which
    the new value then shares with the caller. *)
Inductive path_arg `{Transport} :=
  | PathFromStr (s : str)
  | PathFromList (ℓ : loc).

Section methods.
Context `{Transport} `{!Pickle (list Z)} `{RandomSource}.

Definition __init__ (obj : path_arg) : py t :=
  match obj with
  | PathFromStr s =>
      b ← lift (b64decode (str_encode s));
      l ← lift (pickle_loads b);
      ℓ ← alloc l;
      mret {| _data := ℓ |}
  | PathFromList ℓ => mret {| _data := ℓ |}
  end.

Definition path (self : t) : loc := _data self.

Definition last_edge (self : t) : py (Z * Z) :=
  l ← read (_data self);
  a ← lift (py_getitem l (-2));
  b ← lift (py_getitem l (-1));
  mret (a, b).

Definition serialize (self : t) : py str :=
  l ← read (_data self);
  lift (bytes_decode (b64encode (pickle_dumps l))).

Definition append (self : t) (dst_neighbors : Neighbors.t)
    (alias_prob : AliasProb.t) (seed : option Z) : py t :=
  next_vertex ← AliasProb.draw_alias alias_prob dst_neighbors seed;
  l ← read (_data self);
  path ← alloc l;
  p ← read path;
  first_step ←
    (if bool_decide (length p = 2%nat)
     then p0 ← lift (py_getitem p 0); mret (bool_decide (p0 < 0))
     else mret false);
  if first_step : bool then
    p1 ← lift (py_getitem p 1);
    path' ← alloc [p1; next_vertex];
    __init__ (PathFromList path')
  else
    p ← read path;
    _ ← write path (p ++ [next_vertex]);
    __init__ (PathFromList path).

End methods.
End RandomPath.

(** ** Calling [as_pandas] on a value of any of the three classes *)

Inductive object :=
  | NeighborsObject (v : Neighbors.t)
  | AliasProbObject (v : AliasProb.t)
  | RandomPathObject (v : RandomPath.t).

(** [v.as_pandas()]: the attribute is looked up in the class of [v];
    [Neighbors] is the only class that defines it. *)
Definition call_as_pandas (v : object) : result DataFrame :=
  match v with
  | NeighborsObject n => Neighbors.as_pandas n
  | AliasProbObject _ => Err (AttributeError "as_pandas")
  | RandomPathObject _ => Err (AttributeError "as_pandas")
  end.

(** [from_rows(to_rows(v))]: the value built from the row set of [v]. *)
Definition Neighbors_from_rows_to_rows `{Transport} `{!Pickle (list Z * list Q)}
    (v : Neighbors.t) : result Neighbors.t :=
  df ← call_as_pandas (NeighborsObject v);
  Neighbors.__init__ (FromFrame df).

Definition AliasProb_from_rows_to_rows `{Transport} `{!Pickle (list Z * list Q)}
    (v : AliasProb.t) : result AliasProb.t :=
  df ← call_as_pandas (AliasProbObject v);
  AliasProb.__init__ (FromFrame df).

(** The list a returned path refers to, in the state the call leaves. *)
Definition path_content `{RandomSource} (r : result RandomPath.t * world)
  : result (list Z) :=
  match r with
  | (Ok p, w) =>
      match heap w !! RandomPath._data p with
      | Some l => Ok l
      | None => Err IllTyped
      end
  | (Err e, _) => Err e
  end.

(** The state of the generator when [draw_alias] starts drawing. *)
Definition start_state `{RandomSource} (seed : option Z) (w : world)
  : rng_state :=
  match seed with
  | Some a => random_seed a
  | None => rng w
  end.

(** ** Notions used to state the properties *)

(** A result that is no [ValueError]. *)
Definition not_value_error {A} (r : result A) : Prop :=
  ∀ m, r ≠ Err (ValueError m).

(** What [draw_alias] returns once the two numbers [r] and [r'] are
    drawn. *)
Definition draw_from (self : AliasProb.t) (nbs : Neighbors.t) (r r' : Q)
  : result Z :=
  let pick :=
    py_int (r * inject_Z (Z.of_nat (length (AliasProb.alias self))))%Q in
  p ← py_getitem (AliasProb.probs self) pick;
  if Qltb r' p then py_getitem (Neighbors.dst_id nbs) pick
  else a ← py_getitem (AliasProb.alias self) pick;
       py_getitem (Neighbors.dst_id nbs) a.

(** The path after one more hop: the two cases of [append]. *)
Definition extended (l : list Z) (next_vertex : Z) : list Z :=
  match l with
  | [sentinel; start] =>
      if bool_decide (sentinel < 0) then [start; next_vertex]
      else l ++ [next_vertex]
  | _ => l ++ [next_vertex]
  end.


(** The entry of [probs] at an index in range. *)
Definition prob_at (probs : list Q) (i : Z) : Q :=
  default 0%Q (probs !! Z.to_nat i).

(** What keeps the [while] loop within the bounds of its lists, for
    weights of length [n]. *)
Definition shape_inv (n : nat) (alias : list Z) (probs : list Q)
    (U O : list Z) : Prop :=
  length alias = n
  ∧ length probs = n
  ∧ Forall (λ a, 0 ≤ a < Z.of_nat n) alias
  ∧ Forall (λ i, 0 ≤ i < Z.of_nat n) (U ++ O).






(** A path that has started: at least two entries, and not of the form
    [[sentinel, start]] with a negative [sentinel]. *)
Definition started (l : list Z) : Prop :=
  (2 ≤ length l)%nat ∧ ¬ ∃ a b, l = [a; b] ∧ a < 0.

(** ** A generator and a transport to run the definitions

    Lehmer's multiplicative congruential generator, and a transport whose
    blobs are the pickled values themselves. *)

Definition lehmer_modulus : positive := 2147483647.

Definition lehmer_next (s : Z) : Z := (48271 * s) `mod` Z.pos lehmer_modulus.

Lemma lehmer_range (s : Z) :
  (0 <= lehmer_next s # lehmer_modulus)%Q
  ∧ (lehmer_next s # lehmer_modulus < 1)%Q.
Proof.
  pose proof (Z.mod_pos_bound (48271 * s) (Z.pos lehmer_modulus) eq_refl).
  unfold Qle, Qlt, lehmer_next; simpl; lia.
Qed.

Definition lehmer : RandomSource := {|
  rng_state := Z;
  random_seed a := a;
  random_random s := (lehmer_next s # lehmer_modulus, lehmer_next s)%Q;
  random_random_range := lehmer_range;
|}.

Inductive pickled :=
  | PickledTuple (d : list Z * list Q)
  | PickledList (l : list Z).

Definition memory_transport : Transport := {|
  bytes := pickled;
  str := pickled;
  b64encode b := b;
  b64decode b := Ok b;
  bytes_decode b := Ok b;
  str_encode s := s;
  b64decode_b64encode b := eq_refl;
  str_encode_decode b := ex_intro _ b (conj eq_refl eq_refl);
|}.

Definition memory_pickle_tuple : @Pickle memory_transport (list Z * list Q) := {|
  pickle_dumps := PickledTuple : _ → @bytes memory_transport;
  pickle_loads b :=
    match b with
    | PickledTuple d => Ok d
    | PickledList _ => Err IllTyped
    end;
  pickle_loads_dumps v := eq_refl;
|}.

Definition memory_pickle_list : @Pickle memory_transport (list Z) := {|
  pickle_dumps := PickledList : _ → @bytes memory_transport;
  pickle_loads b :=
    match b with
    | PickledList l => Ok l
    | PickledTuple _ => Err IllTyped
    end;
  pickle_loads_dumps v := eq_refl;
|}.

(** * Properties *)

(** ** Python lists *)

Lemma py_index_nat (n k : nat) :
  (k < n)%nat → py_index n (Z.of_nat k) = Some k.
Proof.
  intros Hk. unfold py_index.
  rewrite bool_decide_eq_true_2 by lia. by rewrite Nat2Z.id.
Qed.

Lemma py_index_nonneg (n : nat) (i : Z) :
  0 ≤ i < Z.of_nat n → py_index n i = Some (Z.to_nat i).
Proof. intros Hi. unfold py_index. by rewrite bool_decide_eq_true_2. Qed.

Lemma py_getitem_lookup {A} (l : list A) (k : nat) (x : A) :
  l !! k = Some x → py_getitem l (Z.of_nat k) = Ok x.
Proof.
  intros Hk. unfold py_getitem.
  rewrite py_index_nat by (by eapply lookup_lt_Some). by rewrite Hk.
Qed.

Lemma py_getitem_in_range {A} (l : list A) (i : Z) :
  0 ≤ i < Z.of_nat (length l) → ∃ x, py_getitem l i = Ok x ∧ l !! Z.to_nat i = Some x.
Proof.
  intros Hi. unfold py_getitem. rewrite py_index_nonneg by done.
  destruct (lookup_lt_is_Some_2 l (Z.to_nat i)) as [x Hx]; [lia|].
  rewrite Hx. eauto.
Qed.

Lemma Qeq_bool_nonzero (y : Q) : ¬ (y == 0)%Q → Qeq_bool y 0 = false.
Proof.
  intros Hy. destruct (Qeq_bool y 0) eqn:E; [|done].
  by apply Qeq_bool_iff in E.
Qed.

Lemma py_div_nonzero (x y : Q) : ¬ (y == 0)%Q → py_div x y = Ok (x / y)%Q.
Proof. intros Hy. unfold py_div. by rewrite Qeq_bool_nonzero. Qed.

Lemma Qdiv_1_r_eq (x : Q) : (x / 1)%Q = x.
Proof.
  destruct x as [a b]. unfold Qdiv, Qmult, Qinv. simpl.
  by rewrite Z.mul_1_r, Pos.mul_1_r.
Qed.

(** ** The exceptions of the table builders *)

Lemma py_getitem_nve {A} (l : list A) i : not_value_error (py_getitem l i).
Proof.
  intros m. unfold py_getitem.
  destruct (py_index _ _); [destruct (l !! _)|]; done.
Qed.

Lemma py_setitem_nve {A} (l : list A) i x : not_value_error (py_setitem l i x).
Proof. intros m. unfold py_setitem. by destruct (py_index _ _). Qed.

Lemma py_div_nve x y : not_value_error (py_div x y).
Proof. intros m. unfold py_div. by destruct (Qeq_bool _ _). Qed.

Lemma bind_nve {A B} (r : result A) (k : A → result B) :
  not_value_error r → (∀ a, not_value_error (k a)) → not_value_error (r ≫= k).
Proof.
  intros Hr Hk m. destruct r as [a|e]; simpl; [apply Hk|].
  intros [= ->]. by apply (Hr m).
Qed.

Lemma rmap_nve {A B} (f : A → result B) l :
  (∀ a, not_value_error (f a)) → not_value_error (rmap f l).
Proof.
  intros Hf. induction l as [|a l IH]; simpl; [done|].
  apply bind_nve; [done|]. intros b. apply bind_nve; [done|]. done.
Qed.

Lemma classify_nve probs idx u o : not_value_error (classify probs idx u o).
Proof.
  revert u o. induction idx as [|i idx IH]; intros u o; simpl; [done|].
  apply bind_nve; [apply py_getitem_nve|]. intros p. by destruct (Qltb p 1).
Qed.

Lemma pair_step_nve al pr u o : not_value_error (pair_step al pr u o).
Proof.
  unfold pair_step.
  repeat (apply bind_nve;
          [first [apply py_getitem_nve|apply py_setitem_nve]|intros ?]).
  done.
Qed.

Lemma pair_loop_nve al pr u o : not_value_error (pair_loop al pr u o).
Proof.
  funelim (pair_loop al pr u o); try done.
  intros m [= ->]. by eapply pair_step_nve.
Qed.

Lemma generate_alias_tables_nve ws : not_value_error (generate_alias_tables ws).
Proof.
  unfold generate_alias_tables.
  apply bind_nve; [apply py_div_nve|]. intros avg.
  apply bind_nve; [apply rmap_nve; intros; apply py_div_nve|]. intros probs.
  apply bind_nve; [apply classify_nve|]. intros [u o]. apply pair_loop_nve.
Qed.

(** The [while] loop, one pass unfolded. *)
Lemma pair_loop_pass al pr u o :
  pair_loop al pr u o =
  match list_pop u, list_pop o with
  | Some (u', under), Some (o', over) =>
      match pair_step al pr under over with
      | Err e => Err e
      | Ok (al', pr', true) => pair_loop al' pr' (u' ++ [over]) o'
      | Ok (al', pr', false) => pair_loop al' pr' u' (o' ++ [over])
      end
  | _, _ => Ok (al, pr)
  end.
Proof.
  funelim (pair_loop al pr u o);
    repeat match goal with
           | H : sigmaI _ _ _ = _ |- _ => clear H
           | H : list_pop _ = _ |- _ => rewrite H; clear H
           | H : pair_step _ _ _ _ = _ |- _ => rewrite H; clear H
           end; done.
Qed.

(** ** The alias table *)

Lemma Qltb_lt (x y : Q) : Qltb x y = true ↔ (x < y)%Q.
Proof.
  unfold Qltb. rewrite negb_true_iff. split.
  - intros E. apply Qnot_le_lt. intros Hle. apply Qle_bool_iff in Hle. congruence.
  - intros Hlt. destruct (Qle_bool y x) eqn:E; [|done].
    apply Qle_bool_iff in E. lra.
Qed.

Lemma Qltb_ge (x y : Q) : Qltb x y = false ↔ (y <= x)%Q.
Proof.
  unfold Qltb. rewrite negb_false_iff. apply Qle_bool_iff.
Qed.







Lemma py_getitem_prob_at (probs : list Q) (i : Z) :
  0 ≤ i < Z.of_nat (length probs) →
  py_getitem probs i = Ok (prob_at probs i).
Proof.
  intros Hi. destruct (py_getitem_in_range probs i Hi) as (x & -> & Hx).
  unfold prob_at. by rewrite Hx.
Qed.

Lemma py_setitem_in_range {A} (l : list A) (i : Z) (x : A) :
  0 ≤ i < Z.of_nat (length l) → py_setitem l i x = Ok (<[Z.to_nat i := x]> l).
Proof. intros Hi. unfold py_setitem. by rewrite py_index_nonneg. Qed.

Lemma prob_at_insert_eq (probs : list Q) (i : Z) (x : Q) :
  0 ≤ i < Z.of_nat (length probs) →
  prob_at (<[Z.to_nat i := x]> probs) i = x.
Proof.
  intros Hi. unfold prob_at. rewrite list_lookup_insert_eq by lia. done.
Qed.




Lemma py_range_bound (n : nat) :
  Forall (λ i, 0 ≤ i < Z.of_nat n) (py_range n).
Proof.
  apply Forall_forall. intros i (k & -> & Hk%elem_of_seq)%list_elem_of_fmap. lia.
Qed.


(** The normalised weights. *)
Lemma rmap_py_div (ws : list Q) (c : Q) :
  ¬ (c == 0)%Q → rmap (λ x, py_div x c) ws = Ok ((λ x, x / c)%Q <$> ws).
Proof.
  intros Hc. induction ws as [|x ws IH]; simpl; [done|].
  rewrite py_div_nonzero by done. cbn [mbind result_bind]. by rewrite IH.
Qed.

(** The worklists after the first loop. *)
Lemma classify_spec (probs : list Q) (idx U0 O0 : list Z) :
  Forall (λ i, 0 ≤ i < Z.of_nat (length probs)) idx →
  Forall (λ i, prob_at probs i < 1)%Q U0 →
  Forall (λ i, 1 <= prob_at probs i)%Q O0 →
  ∃ U O, classify probs idx U0 O0 = Ok (U, O)
         ∧ U ++ O ≡ₚ U0 ++ O0 ++ idx
         ∧ Forall (λ i, prob_at probs i < 1)%Q U
         ∧ Forall (λ i, 1 <= prob_at probs i)%Q O.
Proof.
  intros Hidx. revert U0 O0.
  induction Hidx as [|i idx Hi _ IH]; intros U0 O0 HU HO.
  - exists U0, O0. by rewrite app_nil_r.
  - simpl. rewrite py_getitem_prob_at by done. cbn [mbind result_bind].
    destruct (Qltb (prob_at probs i) 1) eqn:E.
    + apply Qltb_lt in E.
      destruct (IH (U0 ++ [i]) O0) as (U & O & -> & Hperm & HU' & HO');
        [apply Forall_app; split; [done|by constructor]|done|].
      exists U, O. split; [done|]. split; [|done].
      rewrite Hperm. solve_Permutation.
    + apply Qltb_ge in E.
      destruct (IH U0 (O0 ++ [i])) as (U & O & -> & Hperm & HU' & HO');
        [done|apply Forall_app; split; [done|by constructor]|].
      exists U, O. split; [done|]. split; [|done].
      rewrite Hperm. solve_Permutation.
Qed.






(** The same, for the shape of the table only. *)
Lemma pair_step_shape (n : nat) (alias : list Z) (probs : list Q)
    (U' O' : list Z) (under over : Z) :
  shape_inv n alias probs (U' ++ [under]) (O' ++ [over]) →
  ∃ alias' probs' (b : bool),
    pair_step alias probs under over = Ok (alias', probs', b)
    ∧ shape_inv n alias' probs'
        (if b then U' ++ [over] else U') (if b then O' else O' ++ [over]).
Proof.
  intros (Hal & Hpl & Halias & Hbound).
  apply Forall_app in Hbound as [[HU' [Hu _]%Forall_cons]%Forall_app
                                 [HO' [Ho _]%Forall_cons]%Forall_app].
  set (v := (prob_at probs over + prob_at probs under - 1)%Q).
  set (probs' := <[Z.to_nat over := v]> probs).
  exists (<[Z.to_nat under := over]> alias), probs', (Qltb v 1).
  split.
  { unfold pair_step.
    rewrite py_setitem_in_range by lia. cbn [mbind result_bind].
    rewrite !py_getitem_prob_at by lia. cbn [mbind result_bind].
    rewrite py_setitem_in_range by lia. cbn [mbind result_bind].
    fold v probs'.
    rewrite py_getitem_prob_at by (unfold probs'; rewrite length_insert; lia).
    cbn [mbind result_bind]. unfold probs'.
    by rewrite prob_at_insert_eq by lia. }
  split; [by rewrite length_insert|].
  split; [unfold probs'; by rewrite length_insert|].
  split; [apply Forall_insert; [done|lia]|].
  destruct (Qltb v 1); rewrite !Forall_app; repeat split;
    done || (constructor; [done|constructor]).
Qed.

Lemma pair_loop_shape (n : nat) :
  ∀ (m : nat) (alias : list Z) (probs : list Q) (U O : list Z),
    (length U + length O)%nat = m →
    shape_inv n alias probs U O →
    ∃ alias' probs',
      pair_loop alias probs U O = Ok (alias', probs')
      ∧ length alias' = n
      ∧ Forall (λ a, 0 ≤ a < Z.of_nat n) alias'
      ∧ length probs' = n.
Proof.
  induction m as [|m IH]; intros alias probs U O Hm Hinv;
    rewrite pair_loop_pass.
  - assert (U = []) as -> by (destruct U; [done|simpl in Hm; lia]).
    simpl. exists alias, probs. destruct Hinv as (? & ? & ? & ?). done.
  - destruct (list_pop U) as [[U' under]|] eqn:HU; cycle 1.
    { exists alias, probs. destruct Hinv as (? & ? & ? & ?). done. }
    destruct (list_pop O) as [[O' over]|] eqn:HO; cycle 1.
    { exists alias, probs. destruct Hinv as (? & ? & ? & ?). done. }
    apply list_pop_app in HU as ->. apply list_pop_app in HO as ->.
    destruct (pair_step_shape _ _ _ _ _ _ _ Hinv)
      as (alias' & probs' & b & -> & Hinv').
    rewrite !length_app in Hm. simpl in Hm.
    destruct b; (eapply IH; [|exact Hinv']); rewrite ?length_app; simpl; lia.
Qed.





(** C6.  On the empty weight list [generate_alias_tables] raises the
    division error of [sum(node_weights) / n] and returns no table. *)
Theorem generate_alias_tables_empty :
  generate_alias_tables [] = Err ZeroDivisionError
  ∧ ∀ table, generate_alias_tables [] ≠ Ok table.
Proof. split; [reflexivity | intros table; discriminate]. Qed.

(** ** The edge bias *)

Lemma check_neighbors_pair (sn dn : neighbors_tuple) :
  check_neighbors [sn; dn] =
  if bool_decide (length sn.1 ≠ length sn.2)
  then Err (ValueError (InvalidNeighborsTuple sn))
  else if bool_decide (length dn.1 ≠ length dn.2)
       then Err (ValueError (InvalidNeighborsTuple dn))
       else Ok ().
Proof. reflexivity. Qed.

Lemma check_neighbors_ok (sn dn : neighbors_tuple) :
  length sn.1 = length sn.2 → length dn.1 = length dn.2 →
  check_neighbors [sn; dn] = Ok ().
Proof.
  intros Hs Hd. rewrite check_neighbors_pair.
  by rewrite !bool_decide_eq_false_2 by (intros ?; done).
Qed.

Lemma check_neighbors_err (sn dn : neighbors_tuple) :
  length sn.1 ≠ length sn.2 ∨ length dn.1 ≠ length dn.2 →
  ∃ nbs, check_neighbors [sn; dn] = Err (ValueError (InvalidNeighborsTuple nbs)).
Proof.
  intros H. rewrite check_neighbors_pair.
  repeat case_bool_decide; eauto. tauto.
Qed.

(** On the indices [k, k+1, ..., n-1] of two lists of length [n], the
    loop appends the biased weights of the remaining pairs, in order. *)
Lemma bias_loop_zip src (src_ids : list Z) (ids : list Z) (ws : list Q) p q :
  length ids = length ws → ¬ (p == 0)%Q → ¬ (q == 0)%Q →
  ∀ (m k : nat) acc, (k + m)%nat = length ids →
    bias_loop src (list_to_set src_ids) (ids, ws) p q
      (Z.of_nat <$> seq k m) acc
    = Ok (acc ++ zip_with (biased_weight_spec src src_ids p q)
                   (drop k ids) (drop k ws)).
Proof.
  intros Hlen Hp Hq. induction m as [|m IH]; intros k acc Hk.
  - simpl. rewrite !drop_ge by lia. by rewrite app_nil_r.
  - destruct (lookup_lt_is_Some_2 ids k) as [x Hx]; [lia|].
    destruct (lookup_lt_is_Some_2 ws k) as [y Hy]; [lia|].
    rewrite (drop_S _ _ _ Hx), (drop_S _ _ _ Hy).
    cbn [seq fmap list_fmap bias_loop fst snd].
    rewrite (py_getitem_lookup _ _ _ Hx), (py_getitem_lookup _ _ _ Hy).
    cbn [mbind result_bind].
    assert (Hb :
      (if bool_decide (x = src) then py_div y p
       else if bool_decide (x ∈ (list_to_set src_ids : gset Z)) then Ok y
       else py_div y q) = Ok (biased_weight_spec src src_ids p q x y)).
    { unfold biased_weight_spec. rewrite !py_div_nonzero by done.
      rewrite (bool_decide_ext (x ∈ (list_to_set src_ids : gset Z)) (x ∈ src_ids))
        by apply elem_of_list_to_set.
      by repeat case_bool_decide. }
    rewrite Hb. cbn [mbind result_bind].
    rewrite IH by lia. by rewrite <- app_assoc.
Qed.

Lemma generate_edge_alias_tables_valid src (sn dn : neighbors_tuple) p q :
  length sn.1 = length sn.2 → length dn.1 = length dn.2 →
  ¬ (p == 0)%Q → ¬ (q == 0)%Q →
  generate_edge_alias_tables src sn dn p q =
  generate_alias_tables (zip_with (biased_weight_spec src sn.1 p q) dn.1 dn.2).
Proof.
  intros Hs Hd Hp Hq. unfold generate_edge_alias_tables.
  rewrite check_neighbors_ok by done. cbn [mbind result_bind].
  rewrite !Qeq_bool_nonzero by done. cbn [orb]. destruct dn as [ids ws]. simpl in Hd. unfold py_range.
  cbn [fst snd].
  by rewrite (bias_loop_zip src sn.1 ids ws p q Hd Hp Hq (length ids) 0 []).
Qed.

Lemma zip_with_unbiased src (src_ids ids : list Z) (ws : list Q) :
  length ids = length ws →
  zip_with (biased_weight_spec src src_ids 1 1) ids ws = ws.
Proof.
  revert ws. induction ids as [|x ids IH]; intros [|w ws]; simpl; try done.
  intros [= Hlen]. rewrite IH by done. f_equal.
  unfold biased_weight_spec. rewrite Qdiv_1_r_eq. by repeat case_bool_decide.
Qed.

(** C2.  For well-formed neighbour tuples and non-zero [p] and [q],
    [generate_edge_alias_tables] returns what [generate_alias_tables]
    returns on the biased weights of the pairs of [dst_neighbors] taken in
    order: [weight / p] when the neighbour is [src_id], [weight] when it is
    one of the ids of [src_neighbors], [weight / q] otherwise. *)
Theorem edge_tables_are_tables_of_biased_weights
    (src_id : Z) (src_neighbors dst_neighbors : neighbors_tuple) (p q : Q) :
  length src_neighbors.1 = length src_neighbors.2 →
  length dst_neighbors.1 = length dst_neighbors.2 →
  ¬ (p == 0)%Q → ¬ (q == 0)%Q →
  generate_edge_alias_tables src_id src_neighbors dst_neighbors p q =
  generate_alias_tables
    (zip_with (biased_weight_spec src_id src_neighbors.1 p q)
       dst_neighbors.1 dst_neighbors.2).
Proof.
  intros Hs Hd Hp Hq. unfold generate_edge_alias_tables.
  rewrite check_neighbors_ok by done. cbn [mbind result_bind].
  rewrite !Qeq_bool_nonzero by done.
  cbn [orb]. destruct dst_neighbors as [ids ws]. cbn [fst snd] in *.
  unfold py_range.
  rewrite (bias_loop_zip src_id src_neighbors.1 ids ws p q Hd Hp Hq
             (length ids) 0 []) by done.
  reflexivity.
Qed.

Lemma edge_tables_are_tables_of_biased_weights_witness :
  generate_edge_alias_tables 7 ([1; 2], [1; 1]%Q) ([7; 2; 9], [1; 1; 1]%Q)
    2 (1 # 2) =
  generate_alias_tables [(1 / 2)%Q; 1%Q; (1 / (1 # 2))%Q].
Proof.
  apply (edge_tables_are_tables_of_biased_weights 7
           ([1; 2], [1; 1]%Q) ([7; 2; 9], [1; 1; 1]%Q) 2 (1 # 2));
    [reflexivity | reflexivity | discriminate | discriminate].
Defined.

(** C5.  With [p = q = 1] the edge table of well-formed neighbour tuples
    is the table of the plain weights of [dst_neighbors]. *)
Theorem edge_tables_unbiased
    (src_id : Z) (src_neighbors dst_neighbors : neighbors_tuple) :
  length src_neighbors.1 = length src_neighbors.2 →
  length dst_neighbors.1 = length dst_neighbors.2 →
  generate_edge_alias_tables src_id src_neighbors dst_neighbors 1 1 =
  generate_alias_tables dst_neighbors.2.
Proof.
  intros Hs Hd.
  rewrite generate_edge_alias_tables_valid by (done || discriminate).
  by rewrite zip_with_unbiased.
Qed.

Lemma edge_tables_unbiased_witness :
  generate_edge_alias_tables 7 ([1; 2], [1; 1]%Q) ([7; 2; 9], [1; 2; 3]%Q) 1 1 =
  generate_alias_tables [1; 2; 3]%Q.
Proof.
  apply (edge_tables_unbiased 7 ([1; 2], [1; 1]%Q) ([7; 2; 9], [1; 2; 3]%Q));
    reflexivity.
Defined.

(** C7.  [generate_edge_alias_tables] raises the [ValueError] on an
    invalid neighbours tuple exactly when one of the two tuples has lists
    of different lengths; when both are well formed it raises the
    [ValueError] on a zero parameter exactly when [p == 0] or [q == 0];
    in both cases the call returns no table. *)
Theorem generate_edge_alias_tables_errors
    (src_id : Z) (src_neighbors dst_neighbors : neighbors_tuple) (p q : Q) :
  let r := generate_edge_alias_tables src_id src_neighbors dst_neighbors p q in
  ((∃ nbs, r = Err (ValueError (InvalidNeighborsTuple nbs)))
   ↔ (length src_neighbors.1 ≠ length src_neighbors.2
      ∨ length dst_neighbors.1 ≠ length dst_neighbors.2))
  ∧ (length src_neighbors.1 = length src_neighbors.2 →
     length dst_neighbors.1 = length dst_neighbors.2 →
     ((r = Err (ValueError (ZeroReturnOrInout p q)))
      ↔ ((p == 0)%Q ∨ (q == 0)%Q)))
  ∧ (∀ m, r = Err (ValueError m) → ∀ table, r ≠ Ok table).
Proof.
  intros r. subst r.
  assert (Hvalid : length src_neighbors.1 = length src_neighbors.2 →
                   length dst_neighbors.1 = length dst_neighbors.2 →
                   Qeq_bool p 0 || Qeq_bool q 0 = false →
                   not_value_error (generate_edge_alias_tables src_id
                                      src_neighbors dst_neighbors p q)).
  { intros Hs Hd [Hp Hq]%orb_false_elim.
    rewrite generate_edge_alias_tables_valid; try done.
    - apply generate_alias_tables_nve.
    - intros E%Qeq_bool_iff. congruence.
    - intros E%Qeq_bool_iff. congruence. }
  split; [|split].
  - split.
    + intros [nbs Hr].
      destruct (decide (length src_neighbors.1 = length src_neighbors.2)) as [Hs|];
        [|by left].
      destruct (decide (length dst_neighbors.1 = length dst_neighbors.2)) as [Hd|];
        [|by right].
      exfalso. destruct (Qeq_bool p 0 || Qeq_bool q 0) eqn:E.
      * revert Hr. unfold generate_edge_alias_tables.
        rewrite check_neighbors_ok by done. cbn [mbind result_bind].
        by rewrite E.
      * by eapply Hvalid.
    + intros H. destruct (check_neighbors_err _ _ H) as [nbs Hn].
      exists nbs. unfold generate_edge_alias_tables. by rewrite Hn.
  - intros Hs Hd. split.
    + intros Hr. destruct (Qeq_bool p 0 || Qeq_bool q 0) eqn:E.
      * apply orb_true_iff in E as [E|E]; apply Qeq_bool_iff in E; tauto.
      * exfalso. by eapply Hvalid.
    + intros H. unfold generate_edge_alias_tables.
      rewrite check_neighbors_ok by done. cbn [mbind result_bind].
      assert (Qeq_bool p 0 || Qeq_bool q 0 = true) as ->; [|done].
      apply orb_true_iff. destruct H as [H|H]; [left|right];
        by apply Qeq_bool_iff.
  - intros m Hr table. by rewrite Hr.
Qed.

Lemma generate_edge_alias_tables_errors_witness :
  generate_edge_alias_tables 7 ([1; 2], [1; 1]%Q) ([7; 2; 9], [1; 1; 1]%Q) 0 1
  = Err (ValueError (ZeroReturnOrInout 0 1)).
Proof.
  apply (generate_edge_alias_tables_errors 7
           ([1; 2], [1; 1]%Q) ([7; 2; 9], [1; 1; 1]%Q) 0 1);
    [reflexivity | reflexivity | left; reflexivity].
Defined.

(** ** The sampler *)

Lemma py_int_scale (r : Q) (n : nat) :
  (0 <= r)%Q → (r < 1)%Q → (1 ≤ n)%nat →
  0 ≤ py_int (r * inject_Z (Z.of_nat n))%Q < Z.of_nat n.
Proof.
  destruct r as [a b]. unfold Qle, Qlt, py_int. simpl. intros H0 H1 Hn.
  rewrite Pos.mul_1_r. rewrite Z.quot_div_nonneg by nia. split.
  - apply Z.div_pos; nia.
  - apply Z.div_lt_upper_bound; nia.
Qed.

Section sampler.
Context `{RandomSource}.

Lemma draw_alias_run (self : AliasProb.t) (nbs : Neighbors.t)
    (seed : option Z) (w : world) :
  AliasProb.draw_alias self nbs seed w =
  let '(r, s1) := random_random (start_state seed w) in
  let '(r', s2) := random_random s1 in
  (draw_from self nbs r r', {| rng := s2; heap := heap w |}).
Proof.
  unfold AliasProb.draw_alias, draw_from, start_state.
  unfold mbind, py_bind, mret, py_ret, py_random_seed, py_random_random, lift.
  destruct seed as [a|]; cbn [rng heap].
  all: destruct (random_random _) as [r s1]; cbn [rng heap].
  all: destruct (random_random s1) as [r' s2]; cbn [rng heap].
  all: destruct (py_getitem (AliasProb.probs self) _) as [p|e]; [|done].
  all: cbn [result_bind]; destruct (Qltb r' p); [done|].
  all: by destruct (py_getitem (AliasProb.alias self) _) as [a'|e].
Qed.

Lemma draw_alias_heap (self : AliasProb.t) (nbs : Neighbors.t)
    (seed : option Z) (w : world) :
  heap (AliasProb.draw_alias self nbs seed w).2 = heap w.
Proof.
  rewrite draw_alias_run.
  destruct (random_random _) as [r s1]. by destruct (random_random s1).
Qed.

(** C8.  When the alias list, the pseudo-probability list and the
    neighbour list have one length [n >= 1] and every alias is in
    [[0, n)], [draw_alias] raises nothing: it picks the index
    [k = int(r * n)], which is in [[0, n)], from a first number [r]
    drawn in [[0, 1)], draws a second number [r'] and returns
    [dst_id[k]] when [r' < probs[k]] and [dst_id[alias[k]]] otherwise;
    the node returned is an element of [dst_id]. *)
Theorem draw_alias_in_range (self : AliasProb.t) (nbs : Neighbors.t)
    (seed : option Z) (w : world) (n : nat) :
  length (AliasProb.alias self) = n →
  length (AliasProb.probs self) = n →
  length (Neighbors.dst_id nbs) = n →
  (1 ≤ n)%nat →
  Forall (λ a, 0 ≤ a < Z.of_nat n) (AliasProb.alias self) →
  ∃ (r r' : Q) (s1 s2 : rng_state) (k : nat) (pk : Q) (ak node : Z),
    random_random (start_state seed w) = (r, s1)
    ∧ random_random s1 = (r', s2)
    ∧ Z.of_nat k = py_int (r * inject_Z (Z.of_nat n))%Q
    ∧ (k < n)%nat
    ∧ AliasProb.probs self !! k = Some pk
    ∧ AliasProb.alias self !! k = Some ak
    ∧ Neighbors.dst_id nbs !! (if Qltb r' pk then k else Z.to_nat ak)
      = Some node
    ∧ AliasProb.draw_alias self nbs seed w
      = (Ok node, {| rng := s2; heap := heap w |})
    ∧ node ∈ Neighbors.dst_id nbs.
Proof.
  intros Ha Hp Hd Hn Hall. rewrite draw_alias_run.
  destruct (random_random (start_state seed w)) as [r s1] eqn:E1.
  destruct (random_random s1) as [r' s2] eqn:E2.
  pose proof (random_random_range (start_state seed w)) as [Hr0 Hr1].
  rewrite E1 in Hr0, Hr1. simpl in Hr0, Hr1.
  pose proof (py_int_scale r n Hr0 Hr1 Hn) as Hk.
  set (pick := py_int (r * inject_Z (Z.of_nat n))%Q) in *.
  destruct (py_getitem_in_range (AliasProb.probs self) pick) as (pk & Gp & Lp);
    [lia|].
  destruct (py_getitem_in_range (AliasProb.alias self) pick) as (ak & Ga & La);
    [lia|].
  destruct (py_getitem_in_range (Neighbors.dst_id nbs) pick) as (dk & Gd & Ld);
    [lia|].
  assert (0 ≤ ak < Z.of_nat n) as Hak.
  { eapply Forall_lookup_1 in Hall; [|exact La]. done. }
  destruct (py_getitem_in_range (Neighbors.dst_id nbs) ak) as (da & Gda & Lda);
    [lia|].
  exists r, r', s1, s2, (Z.to_nat pick), pk, ak,
    (if Qltb r' pk then dk else da).
  split; [done|]. split; [done|]. split; [lia|]. split; [lia|].
  split; [done|]. split; [done|].
  unfold draw_from. rewrite Ha. fold pick. rewrite Gp. cbn [mbind result_bind].
  destruct (Qltb r' pk).
  - rewrite Gd. split; [done|]. split; [done|].
    by eapply list_elem_of_lookup_2.
  - rewrite Ga. cbn [mbind result_bind]. rewrite Gda.
    split; [done|]. split; [done|]. by eapply list_elem_of_lookup_2.
Qed.

End sampler.

Lemma draw_alias_in_range_witness :
  ∃ (r r' : Q) (s1 s2 : Z) (k : nat) (pk : Q) (ak node : Z),
    @random_random lehmer 42 = (r, s1)
    ∧ @random_random lehmer s1 = (r', s2)
    ∧ Z.of_nat k = py_int (r * inject_Z 2)%Q
    ∧ (k < 2)%nat
    ∧ [1 # 2; 1]%Q !! k = Some pk
    ∧ [1; 0] !! k = Some ak
    ∧ [10; 20] !! (if Qltb r' pk then k else Z.to_nat ak) = Some node
    ∧ @AliasProb.draw_alias lehmer
        {| AliasProb._data := ([1; 0], [1 # 2; 1]%Q) |}
        {| Neighbors._data := ([10; 20], [1; 3]%Q) |}
        (Some 42) (@Build_world lehmer 1 ∅)
      = (Ok node, @Build_world lehmer s2 ∅)
    ∧ node ∈ [10; 20].
Proof.
  apply (@draw_alias_in_range lehmer
           {| AliasProb._data := ([1; 0], [1 # 2; 1]%Q) |}
           {| Neighbors._data := ([10; 20], [1; 3]%Q) |}
           (Some 42) (@Build_world lehmer 1 ∅) 2);
    [reflexivity | reflexivity | reflexivity | lia
    | repeat constructor; lia].
Defined.

(** ** Path extension *)

Section path.
Context `{Transport} `{!Pickle (list Z)} `{RandomSource}.

Lemma bind_run {A B} (m : py A) (k : A → py B) (w : world) :
  (m ≫= k) w =
  match m w with
  | (Ok a, w') => k a w'
  | (Err e, w') => (Err e, w')
  end.
Proof. reflexivity. Qed.

Lemma read_run (ℓ : loc) (w : world) :
  read ℓ w =
  match heap w !! ℓ with
  | Some l => (Ok l, w)
  | None => (Err IllTyped, w)
  end.
Proof. reflexivity. Qed.

Lemma alloc_run (l : list Z) (w : world) :
  alloc l w =
  (Ok (fresh (dom (heap w))),
   {| rng := rng w; heap := <[fresh (dom (heap w)) := l]> (heap w) |}).
Proof. reflexivity. Qed.

Lemma write_run (ℓ : loc) (l : list Z) (w : world) :
  write ℓ l w = (Ok (), {| rng := rng w; heap := <[ℓ := l]> (heap w) |}).
Proof. reflexivity. Qed.

Lemma ret_run {A} (a : A) (w : world) : (mret a : py A) w = (Ok a, w).
Proof. reflexivity. Qed.

Lemma lift_run {A} (r : result A) (w : world) : lift r w = (r, w).
Proof. reflexivity. Qed.

(** The test [len(path) == 2 and path[0] < 0]. *)
Lemma first_step_run (l : list Z) (w : world) :
  (if bool_decide (length l = 2%nat)
   then p0 ← lift (py_getitem l 0); mret (bool_decide (p0 < 0))
   else mret false) w
  = (Ok (match l with
         | [sentinel; _] => bool_decide (sentinel < 0)
         | _ => false
         end), w).
Proof. by destruct l as [|a [|b [|c l]]]. Qed.

Lemma append_run (self : RandomPath.t) (nbs : Neighbors.t)
    (ap : AliasProb.t) (seed : option Z) (w w1 : world)
    (l : list Z) (next_vertex : Z) :
  AliasProb.draw_alias ap nbs seed w = (Ok next_vertex, w1) →
  heap w !! RandomPath._data self = Some l →
  ∃ (new : RandomPath.t) (w' : world),
    RandomPath.append self nbs ap seed w = (Ok new, w')
    ∧ heap w' !! RandomPath._data new = Some (extended l next_vertex)
    ∧ (RandomPath._data new ∉ dom (heap w))
    ∧ (∀ ℓ, ℓ ∈ dom (heap w) → heap w' !! ℓ = heap w !! ℓ)
    ∧ rng w' = rng w1.
Proof.
  intros Hdraw Hl.
  assert (heap w1 = heap w) as Hw1.
  { pose proof (draw_alias_heap ap nbs seed w) as Hh. by rewrite Hdraw in Hh. }
  unfold RandomPath.append.
  rewrite bind_run, Hdraw, bind_run, read_run, Hw1, Hl.
  rewrite bind_run, alloc_run, Hw1. cbn [rng].
  set (ℓ := fresh (dom (heap w))).
  assert (Hℓ : ℓ ∉ dom (heap w)) by apply is_fresh.
  rewrite bind_run, read_run. cbn [heap]. rewrite lookup_insert_eq.
  rewrite bind_run, first_step_run.
  assert (Hother : ∀ ℓ0, ℓ0 ∈ dom (heap w) → ℓ ≠ ℓ0) by (intros ? ? <-; done).
  assert ((∃ a b, l = [a; b] ∧ a < 0) ∨ ¬ (∃ a b, l = [a; b] ∧ a < 0))
    as [(a & b & -> & Ha)|Hn].
  { destruct l as [|a [|b [|c l]]];
      try (right; intros (? & ? & ? & ?); done).
    destruct (decide (a < 0)); [left; eauto|].
    right. intros (? & ? & [= -> ->] & ?). done. }
  - (* first step *)
    do 2 eexists. split.
    { rewrite (bool_decide_eq_true_2 (a < 0)) by done.
      change (py_getitem [a; b] 1) with (Ok b).
      rewrite bind_run, lift_run, bind_run, alloc_run. reflexivity. }
    set (ℓ' := fresh (dom (<[ℓ := [a; b]]> (heap w)))).
    assert (Hℓ' : ℓ' ∉ dom (<[ℓ := [a; b]]> (heap w))) by apply is_fresh.
    rewrite dom_insert_L in Hℓ'. cbn [rng heap RandomPath._data].
    split; [rewrite lookup_insert_eq; simpl; by rewrite bool_decide_eq_true_2|].
    split; [set_solver|]. split; [|done].
    intros ℓ0 Hℓ0. rewrite !lookup_insert_ne; [done|by apply Hother|set_solver].
  - (* remaining step *)
    assert ((match l with
             | [sentinel; _] => bool_decide (sentinel < 0)
             | _ => false
             end) = false) as ->.
    { destruct l as [|a [|b [|c l]]]; try done.
      rewrite bool_decide_eq_false_2; [done|]. intros Ha. apply Hn. eauto. }
    do 2 eexists. split.
    { rewrite bind_run, read_run. cbn [heap]. rewrite lookup_insert_eq.
      rewrite bind_run, write_run. cbn [rng heap]. reflexivity. }
    cbn [rng heap RandomPath._data].
    rewrite lookup_insert_eq. split.
    { f_equal. destruct l as [|a [|b [|c l]]]; try done. simpl.
      rewrite bool_decide_eq_false_2; [done|]. intros Ha. apply Hn. eauto. }
    split; [done|]. split; [|done].
    intros ℓ0 Hℓ0. rewrite !lookup_insert_ne; [done|..]; by apply Hother.
Qed.

(** The content of the path that [append] returns, or the exception it
    raises, in terms of the outcome of the draw. *)
Lemma append_content (self : RandomPath.t) (nbs : Neighbors.t)
    (ap : AliasProb.t) (seed : option Z) (w : world) :
  path_content (RandomPath.append self nbs ap seed w) =
  (next_vertex ← (AliasProb.draw_alias ap nbs seed w).1;
   match heap w !! RandomPath._data self with
   | Some l => Ok (extended l next_vertex)
   | None => Err IllTyped
   end).
Proof.
  destruct (AliasProb.draw_alias ap nbs seed w) as [[next|e] w1] eqn:Hdraw.
  - cbn [fst mbind result_bind].
    destruct (heap w !! RandomPath._data self) as [l|] eqn:Hl.
    + destruct (append_run self nbs ap seed w w1 l next Hdraw Hl)
        as (new & w' & -> & Hc & _).
      unfold path_content. by rewrite Hc.
    + assert (heap w1 = heap w) as Hw1.
      { pose proof (draw_alias_heap ap nbs seed w) as Hh.
        by rewrite Hdraw in Hh. }
      unfold RandomPath.append.
      by rewrite bind_run, Hdraw, bind_run, read_run, Hw1, Hl.
  - cbn [fst mbind result_bind]. unfold RandomPath.append.
    by rewrite bind_run, Hdraw.
Qed.

(** C3.  When the draw returns [next_vertex], [append] returns a path
    whose list is [[start, next_vertex]] if the list of the input path is
    [[sentinel, start]] with [sentinel < 0], and the list of the input path
    followed by [next_vertex], one element longer, in every other case.
    The returned path refers to a list object that did not exist before
    the call, and every list that existed, the one of the input path
    included, has the content it had. *)
Theorem append_extends_path (self : RandomPath.t) (nbs : Neighbors.t)
    (ap : AliasProb.t) (seed : option Z) (w w1 : world)
    (l : list Z) (next_vertex : Z) :
  heap w !! RandomPath._data self = Some l →
  AliasProb.draw_alias ap nbs seed w = (Ok next_vertex, w1) →
  ∃ (new : RandomPath.t) (w' : world) (l' : list Z),
    RandomPath.append self nbs ap seed w = (Ok new, w')
    ∧ heap w' !! RandomPath._data new = Some l'
    ∧ (∀ sentinel start,
         l = [sentinel; start] → sentinel < 0 → l' = [start; next_vertex])
    ∧ ((¬ ∃ sentinel start, l = [sentinel; start] ∧ sentinel < 0) →
       l' = l ++ [next_vertex] ∧ length l' = S (length l))
    ∧ (RandomPath._data new ∉ dom (heap w))
    ∧ RandomPath._data new ≠ RandomPath._data self
    ∧ heap w' !! RandomPath._data self = Some l
    ∧ (∀ ℓ, ℓ ∈ dom (heap w) → heap w' !! ℓ = heap w !! ℓ).
Proof.
  intros Hl Hdraw.
  destruct (append_run self nbs ap seed w w1 l next_vertex Hdraw Hl)
    as (new & w' & Hrun & Hc & Hfresh & Hkeep & _).
  assert (RandomPath._data self ∈ dom (heap w)) as Hin
    by (apply elem_of_dom; eauto).
  exists new, w', (extended l next_vertex).
  split; [done|]. split; [done|]. split.
  { intros sentinel start -> Hs. simpl. by rewrite bool_decide_eq_true_2. }
  split.
  { intros Hn.
    assert (extended l next_vertex = l ++ [next_vertex]) as ->.
    { destruct l as [|a [|b [|c l]]]; try done. simpl.
      rewrite bool_decide_eq_false_2; [done|]. intros Ha. apply Hn. eauto. }
    split; [done|]. rewrite length_app. simpl. lia. }
  split; [done|]. split; [by intros E; rewrite E in Hfresh|].
  split; [by rewrite Hkeep|done].
Qed.

(** C9.  With a seed, the node that [draw_alias] returns (or the
    exception it raises) does not depend on the state in which the call is
    made; so two calls of [append] with that seed, on paths with the same
    list, return paths with the same list. *)
Theorem seeded_draw_deterministic (ap : AliasProb.t) (nbs : Neighbors.t)
    (S : Z) (w1 w2 : world) :
  (AliasProb.draw_alias ap nbs (Some S) w1).1
  = (AliasProb.draw_alias ap nbs (Some S) w2).1
  ∧ (∀ path : RandomPath.t,
       heap w1 !! RandomPath._data path = heap w2 !! RandomPath._data path →
       path_content (RandomPath.append path nbs ap (Some S) w1)
       = path_content (RandomPath.append path nbs ap (Some S) w2)).
Proof.
  assert ((AliasProb.draw_alias ap nbs (Some S) w1).1
          = (AliasProb.draw_alias ap nbs (Some S) w2).1) as Hsame.
  { rewrite !draw_alias_run. cbn [start_state].
    destruct (random_random (random_seed S)) as [r s1].
    by destruct (random_random s1) as [r' s2]. }
  split; [done|]. intros path Hpath.
  by rewrite !append_content, Hsame, Hpath.
Qed.

End path.

Lemma append_extends_path_witness :
  ∃ (new : RandomPath.t) (w' : @world lehmer),
    @RandomPath.append memory_transport memory_pickle_list lehmer
      {| RandomPath._data := 1%positive |}
      {| Neighbors._data := ([10; 20], [1; 3]%Q) |}
      {| AliasProb._data := ([1; 0], [1 # 2; 1]%Q) |}
      (Some 42) (@Build_world lehmer 1 {[ 1%positive := [-1; 5] ]})
    = (Ok new, w')
    ∧ heap w' !! RandomPath._data new = Some [5; 20]
    ∧ heap w' !! 1%positive = Some [-1; 5].
Proof.
  destruct (@append_extends_path memory_transport memory_pickle_list lehmer
              {| RandomPath._data := 1%positive |}
              {| Neighbors._data := ([10; 20], [1; 3]%Q) |}
              {| AliasProb._data := ([1; 0], [1 # 2; 1]%Q) |}
              (Some 42) (@Build_world lehmer 1 {[ 1%positive := [-1; 5] ]})
              (@Build_world lehmer 1226992407 {[ 1%positive := [-1; 5] ]})
              [-1; 5] 20)
    as (new & w' & l' & Hrun & Hnew & Hfirst & _ & _ & _ & Hself & _);
    [reflexivity | reflexivity |].
  exists new, w'. rewrite (Hfirst (-1) 5 eq_refl eq_refl) in Hnew. auto.
Defined.

Lemma seeded_draw_deterministic_witness :
  (@AliasProb.draw_alias lehmer
     {| AliasProb._data := ([1; 0], [1 # 2; 1]%Q) |}
     {| Neighbors._data := ([10; 20], [1; 3]%Q) |}
     (Some 42) (@Build_world lehmer 1 ∅)).1
  = (@AliasProb.draw_alias lehmer
       {| AliasProb._data := ([1; 0], [1 # 2; 1]%Q) |}
       {| Neighbors._data := ([10; 20], [1; 3]%Q) |}
       (Some 42) (@Build_world lehmer 99 {[ 1%positive := [3] ]})).1.
Proof.
  apply (@seeded_draw_deterministic memory_transport memory_pickle_list lehmer).
Defined.

(** ** Construction and transport *)

Section transport.
Context `{Transport} `{!Pickle (list Z * list Q)} `{!Pickle (list Z)}
  `{RandomSource}.

Lemma Neighbors_decode_encode (v : Neighbors.t) :
  ∃ s, Neighbors.serialize v = Ok s ∧ Neighbors.__init__ (FromStr s) = Ok v.
Proof.
  destruct v as [d]. unfold Neighbors.serialize, Neighbors.__init__.
  destruct (str_encode_decode (pickle_dumps d)) as (s & Hs & He).
  exists s. split; [done|]. rewrite He, b64decode_b64encode.
  cbn [mbind result_bind]. by rewrite pickle_loads_dumps.
Qed.

Lemma AliasProb_decode_encode (v : AliasProb.t) :
  ∃ s, AliasProb.serialize v = Ok s ∧ AliasProb.__init__ (FromStr s) = Ok v.
Proof.
  destruct v as [d]. unfold AliasProb.serialize, AliasProb.__init__.
  destruct (str_encode_decode (pickle_dumps d)) as (s & Hs & He).
  exists s. split; [done|]. rewrite He, b64decode_b64encode.
  cbn [mbind result_bind]. by rewrite pickle_loads_dumps.
Qed.

Lemma RandomPath_decode_encode (v : RandomPath.t) (w : world) (l : list Z) :
  heap w !! RandomPath._data v = Some l →
  ∃ s, RandomPath.serialize v w = (Ok s, w)
       ∧ ∀ w0, path_content (RandomPath.__init__ (RandomPath.PathFromStr s) w0)
               = Ok l.
Proof.
  intros Hl. unfold RandomPath.serialize.
  destruct (str_encode_decode (pickle_dumps l)) as (s & Hs & He).
  exists s. split.
  - by rewrite bind_run, read_run, Hl, lift_run, Hs.
  - intros w0. unfold RandomPath.__init__.
    rewrite bind_run, lift_run, He, b64decode_b64encode.
    rewrite bind_run, lift_run, pickle_loads_dumps.
    rewrite bind_run, alloc_run, ret_run.
    unfold path_content. cbn [heap RandomPath._data].
    by rewrite lookup_insert_eq.
Qed.

Lemma Neighbors_rows (v : Neighbors.t) :
  length (Neighbors.dst_id v) = length (Neighbors.dst_wt v) →
  ∃ df, Neighbors.as_pandas v = Ok df
        ∧ Neighbors.__init__ (FromFrame df) = Ok v.
Proof.
  destruct v as [[ids ws]]. unfold Neighbors.dst_id, Neighbors.dst_wt.
  cbn [Neighbors._data fst snd]. intros Hlen.
  unfold Neighbors.as_pandas, pd_DataFrame.
  cbn [Neighbors._data fst snd forallb column_len]. rewrite Hlen, Nat.eqb_refl.
  eexists. split; [reflexivity|]. reflexivity.
Qed.

Lemma AliasProb_rows (v : AliasProb.t) :
  length (AliasProb.alias v) = length (AliasProb.probs v) →
  ∃ df, pd_DataFrame [("alias", IntColumn (AliasProb.alias v));
                      ("probs", FloatColumn (AliasProb.probs v))] = Ok df
        ∧ AliasProb.__init__ (FromFrame df) = Ok v.
Proof.
  destruct v as [[al pr]]. unfold AliasProb.alias, AliasProb.probs.
  cbn [AliasProb._data fst snd]. intros Hlen. unfold pd_DataFrame.
  cbn [fst snd forallb column_len]. rewrite Hlen, Nat.eqb_refl.
  eexists. split; [reflexivity|]. reflexivity.
Qed.

(** C4, as amended.  For the three classes, the value constructed from
    the string that [serialize] returns has the data of the serialized
    value, in the same order.  For a [Neighbors] value whose two lists have
    one length, the value constructed from the frame that [as_pandas]
    returns is that value.  [AliasProb] has no [as_pandas]; an
    [AliasProb] value whose two lists have one length is the value
    constructed from the frame with the columns [alias] and [probs] that
    hold its lists. *)
Theorem transport_round_trips :
  (∀ v : Neighbors.t,
     ∃ s, Neighbors.serialize v = Ok s
          ∧ Neighbors.__init__ (FromStr s) = Ok v)
  ∧ (∀ v : AliasProb.t,
       ∃ s, AliasProb.serialize v = Ok s
            ∧ AliasProb.__init__ (FromStr s) = Ok v)
  ∧ (∀ (v : RandomPath.t) (w : world) (l : list Z),
       heap w !! RandomPath._data v = Some l →
       ∃ s, RandomPath.serialize v w = (Ok s, w)
            ∧ ∀ w0,
                path_content (RandomPath.__init__ (RandomPath.PathFromStr s) w0)
                = Ok l)
  ∧ (∀ v : Neighbors.t,
       length (Neighbors.dst_id v) = length (Neighbors.dst_wt v) →
       Neighbors_from_rows_to_rows v = Ok v)
  ∧ (∀ v : AliasProb.t,
       length (AliasProb.alias v) = length (AliasProb.probs v) →
       ∃ df, pd_DataFrame [("alias", IntColumn (AliasProb.alias v));
                           ("probs", FloatColumn (AliasProb.probs v))] = Ok df
             ∧ AliasProb.__init__ (FromFrame df) = Ok v).
Proof.
  split; [apply Neighbors_decode_encode|].
  split; [apply AliasProb_decode_encode|].
  split; [apply RandomPath_decode_encode|].
  split; [|apply AliasProb_rows].
  intros v Hlen. destruct (Neighbors_rows v Hlen) as (df & Hdf & Hinit).
  unfold Neighbors_from_rows_to_rows, call_as_pandas. by rewrite Hdf.
Qed.

(** C10.  The constructors check nothing.  Given a raw value they keep
    it as it is, and given a string they keep whatever it decodes to; so
    a [Neighbors] value and an [AliasProb] value whose two lists differ
    in length, and a [RandomPath] with fewer than two entries, are
    constructed without any exception, from a raw value and from a
    string alike. *)
Theorem constructors_do_not_validate :
  (∀ o, Neighbors.__init__ (FromObj o) = Ok {| Neighbors._data := o |})
  ∧ (∀ o, AliasProb.__init__ (FromObj o) = Ok {| AliasProb._data := o |})
  ∧ (∀ ℓ (w : world),
       RandomPath.__init__ (RandomPath.PathFromList ℓ) w
       = (Ok {| RandomPath._data := ℓ |}, w))
  ∧ (∃ v, Neighbors.__init__ (FromObj ([1; 2], [1 # 2]%Q)) = Ok v
          ∧ length (Neighbors.dst_id v) ≠ length (Neighbors.dst_wt v))
  ∧ (∃ v, AliasProb.__init__ (FromObj ([0; 0], [1]%Q)) = Ok v
          ∧ length (AliasProb.alias v) ≠ length (AliasProb.probs v))
  ∧ (∀ (ℓ : loc) (w : world),
       heap w !! ℓ = Some [7] →
       ∃ v, RandomPath.__init__ (RandomPath.PathFromList ℓ) w = (Ok v, w)
            ∧ heap w !! RandomPath._data v = Some [7]
            ∧ (length [7] < 2)%nat)
  ∧ (∃ s v, Neighbors.__init__ (FromStr s) = Ok v
            ∧ length (Neighbors.dst_id v) ≠ length (Neighbors.dst_wt v))
  ∧ (∃ s v, AliasProb.__init__ (FromStr s) = Ok v
            ∧ length (AliasProb.alias v) ≠ length (AliasProb.probs v))
  ∧ (∃ s, ∀ w : world,
       path_content (RandomPath.__init__ (RandomPath.PathFromStr s) w)
       = Ok [7]).
Proof.
  split; [done|]. split; [done|]. split; [done|].
  split; [eexists; split; [reflexivity|done]|].
  split; [eexists; split; [reflexivity|done]|].
  split.
  { intros ℓ w Hℓ. eexists. split; [reflexivity|]. split; [done|]. simpl. lia. }
  split.
  { destruct (Neighbors_decode_encode
                {| Neighbors._data := ([1; 2], [1 # 2]%Q) |}) as (s & _ & Hs).
    by exists s, {| Neighbors._data := ([1; 2], [1 # 2]%Q) |}. }
  split.
  { destruct (AliasProb_decode_encode
                {| AliasProb._data := ([0; 0], [1]%Q) |}) as (s & _ & Hs).
    by exists s, {| AliasProb._data := ([0; 0], [1]%Q) |}. }
  destruct (RandomPath_decode_encode {| RandomPath._data := 1%positive |}
              {| rng := random_seed 0; heap := {[ 1%positive := [7] ]} |} [7])
    as (s & _ & Hs); [apply lookup_singleton_eq|].
  by exists s.
Qed.

End transport.

Lemma transport_round_trips_witness :
  @Neighbors_from_rows_to_rows memory_transport memory_pickle_tuple
    {| Neighbors._data := ([1; 2], [1 # 2; 3]%Q) |}
  = Ok {| Neighbors._data := ([1; 2], [1 # 2; 3]%Q) |}.
Proof.
  destruct (@transport_round_trips memory_transport memory_pickle_tuple
              memory_pickle_list lehmer) as (_ & _ & _ & Hrows & _).
  apply Hrows. reflexivity.
Defined.

Lemma constructors_do_not_validate_witness :
  ∃ v, @Neighbors.__init__ memory_transport memory_pickle_tuple
         (FromObj ([1; 2], [1 # 2]%Q)) = Ok v
       ∧ length (Neighbors.dst_id v) ≠ length (Neighbors.dst_wt v).
Proof.
  destruct (@constructors_do_not_validate memory_transport memory_pickle_tuple
              memory_pickle_list lehmer) as (_ & _ & _ & Hraw & _).
  exact Hraw.
Defined.

(** Where C4 fails as it is stated: [AliasProb] and [RandomPath] have no
    [as_pandas], and the frame of a [Neighbors] value whose lists differ
    in length cannot be built. *)
Lemma from_rows_to_rows_fails :
  @AliasProb_from_rows_to_rows memory_transport memory_pickle_tuple
    {| AliasProb._data := ([0], [1]%Q) |}
  = Err (AttributeError "as_pandas")
  ∧ call_as_pandas (RandomPathObject {| RandomPath._data := 1%positive |})
    = Err (AttributeError "as_pandas")
  ∧ @Neighbors_from_rows_to_rows memory_transport memory_pickle_tuple
      {| Neighbors._data := ([1; 2], [1 # 2]%Q) |}
    = Err (ValueError ArraysLength).
Proof. repeat split. Qed.


(** * Further properties of the table builders *)


(** The run of [generate_alias_tables] up to the [while] loop, on
    weights whose sum is not zero. *)
Lemma generate_alias_tables_start (node_weights : list Q) :
  node_weights ≠ [] → ¬ (py_sum node_weights == 0)%Q →
  let n := length node_weights in
  let avg := (py_sum node_weights / inject_Z (Z.of_nat n))%Q in
  let probs := (λ x, x / avg)%Q <$> node_weights in
  ¬ (avg == 0)%Q
  ∧ ∃ U O,
      generate_alias_tables node_weights
      = pair_loop (replicate n 0) probs U O
      ∧ U ++ O ≡ₚ py_range n
      ∧ Forall (λ i, prob_at probs i < 1)%Q U
      ∧ Forall (λ i, 1 <= prob_at probs i)%Q O.
Proof.
  intros Hne Hsum n avg probs. unfold generate_alias_tables. fold n.
  assert (1 ≤ n)%nat as Hn.
  { unfold n. destruct node_weights; [done|simpl; lia]. }
  assert (0 < inject_Z (Z.of_nat n))%Q as HnQ.
  { rewrite <- (Zlt_Qlt 0). lia. }
  assert (¬ (avg == 0)%Q) as Havg.
  { unfold avg. intros E. apply Hsum.
    rewrite <- (Qmult_div_r (py_sum node_weights) (inject_Z (Z.of_nat n)))
      by lra.
    rewrite E. ring. }
  split; [done|].
  rewrite py_div_nonzero by lra. cbn [mbind result_bind]. fold avg.
  rewrite rmap_py_div by done. cbn [mbind result_bind]. fold probs.
  assert (length probs = n) as Hpl by apply length_fmap.
  destruct (classify_spec probs (py_range n) [] [])
    as (U & O & -> & Hperm & HU & HO);
    [rewrite Hpl; apply py_range_bound|constructor|constructor|].
  exists U, O. done.
Qed.

Lemma generate_alias_tables_returns (node_weights : list Q) :
  node_weights ≠ [] → ¬ (py_sum node_weights == 0)%Q →
  ∃ alias probs,
    generate_alias_tables node_weights = Ok (alias, probs)
    ∧ length alias = length node_weights
    ∧ Forall (λ a, 0 ≤ a < Z.of_nat (length node_weights)) alias
    ∧ length probs = length node_weights.
Proof.
  intros Hne Hsum.
  destruct (generate_alias_tables_start node_weights Hne Hsum)
    as (Havg & U & O & -> & Hperm & HU & HO).
  set (n := length node_weights) in *.
  assert (1 ≤ n)%nat as Hn.
  { unfold n. destruct node_weights; [done|simpl; lia]. }
  apply (pair_loop_shape n (length U + length O)); [done|].
  split; [apply length_replicate|]. split; [apply length_fmap|].
  split; [apply Forall_replicate; lia|].
  rewrite Hperm. apply py_range_bound.
Qed.

Lemma generate_alias_tables_zero_sum (node_weights : list Q) :
  node_weights ≠ [] → (py_sum node_weights == 0)%Q →
  generate_alias_tables node_weights = Err ZeroDivisionError.
Proof.
  intros Hne Hsum. unfold generate_alias_tables.
  set (n := length node_weights).
  assert (0 < inject_Z (Z.of_nat n))%Q as HnQ.
  { rewrite <- (Zlt_Qlt 0). unfold n. destruct node_weights; [done|simpl; lia]. }
  rewrite py_div_nonzero by lra. cbn [mbind result_bind].
  destruct node_weights as [|x ws]; [done|]. cbn [rmap].
  assert (py_div x (py_sum (x :: ws) / inject_Z (Z.of_nat n))
          = Err ZeroDivisionError) as ->; [|reflexivity].
  unfold py_div.
  assert (Qeq_bool (py_sum (x :: ws) / inject_Z (Z.of_nat n)) 0 = true) as ->;
    [|reflexivity].
  apply Qeq_bool_iff. rewrite Hsum. unfold Qdiv. ring.
Qed.






















(** * Further properties of the edge bias *)

(** X5.  The table of an edge depends on [src_neighbors] through the
    set of its ids only: neither their order, nor their repetitions,
    nor the weights of [src_neighbors] matter. *)
Theorem edge_tables_use_src_ids_as_a_set (src_id : Z)
    (src_neighbors src_neighbors' dst_neighbors : neighbors_tuple) (p q : Q) :
  length src_neighbors.1 = length src_neighbors.2 →
  length src_neighbors'.1 = length src_neighbors'.2 →
  (∀ x, x ∈ src_neighbors.1 ↔ x ∈ src_neighbors'.1) →
  generate_edge_alias_tables src_id src_neighbors dst_neighbors p q
  = generate_edge_alias_tables src_id src_neighbors' dst_neighbors p q.
Proof.
  intros Hs Hs' Hset. unfold generate_edge_alias_tables.
  rewrite !check_neighbors_pair.
  rewrite (bool_decide_eq_false_2 (length src_neighbors.1 ≠ _))
    by (intros ?; done).
  rewrite (bool_decide_eq_false_2 (length src_neighbors'.1 ≠ _))
    by (intros ?; done).
  assert ((list_to_set src_neighbors.1 : gset Z)
          = list_to_set src_neighbors'.1) as ->; [|done].
  apply set_eq. intros x. by rewrite !elem_of_list_to_set.
Qed.

Lemma edge_tables_use_src_ids_as_a_set_witness :
  generate_edge_alias_tables 7 ([1; 2; 2], [1; 1; 5]%Q)
    ([7; 2; 9], [1; 1; 1]%Q) 2 (1 # 2)
  = generate_edge_alias_tables 7 ([2; 1], [3; 4]%Q)
      ([7; 2; 9], [1; 1; 1]%Q) 2 (1 # 2).
Proof.
  apply (edge_tables_use_src_ids_as_a_set 7 ([1; 2; 2], [1; 1; 5]%Q)
           ([2; 1], [3; 4]%Q) ([7; 2; 9], [1; 1; 1]%Q) 2 (1 # 2));
    [reflexivity | reflexivity |].
  intros x. simpl. rewrite !elem_of_cons, !elem_of_nil. tauto.
Defined.

(** X6.  The check of the tuples comes first: when [src_neighbors] is
    ill formed the [ValueError] reports [src_neighbors], when only
    [dst_neighbors] is ill formed it reports [dst_neighbors], and this
    also when [p] or [q] is zero. *)
Theorem edge_tables_report_first_ill_formed_tuple (src_id : Z)
    (src_neighbors dst_neighbors : neighbors_tuple) (p q : Q) :
  (length src_neighbors.1 ≠ length src_neighbors.2 →
   generate_edge_alias_tables src_id src_neighbors dst_neighbors p q
   = Err (ValueError (InvalidNeighborsTuple src_neighbors)))
  ∧ (length src_neighbors.1 = length src_neighbors.2 →
     length dst_neighbors.1 ≠ length dst_neighbors.2 →
     generate_edge_alias_tables src_id src_neighbors dst_neighbors p q
     = Err (ValueError (InvalidNeighborsTuple dst_neighbors))).
Proof.
  unfold generate_edge_alias_tables. rewrite check_neighbors_pair. split.
  - intros Hs. by rewrite bool_decide_eq_true_2.
  - intros Hs Hd.
    rewrite bool_decide_eq_false_2 by (intros ?; done).
    by rewrite bool_decide_eq_true_2.
Qed.

Lemma edge_tables_report_first_ill_formed_tuple_witness :
  generate_edge_alias_tables 7 ([1; 2], [1; 1]%Q) ([7; 2; 9], [1; 1]%Q) 0 0
  = Err (ValueError (InvalidNeighborsTuple ([7; 2; 9], [1; 1]%Q))).
Proof.
  apply (edge_tables_report_first_ill_formed_tuple 7 ([1; 2], [1; 1]%Q)
           ([7; 2; 9], [1; 1]%Q) 0 0); [reflexivity | discriminate].
Defined.

(** What a returned table looks like. *)
Lemma generate_alias_tables_Ok (ws : list Q) (alias : list Z) (probs : list Q) :
  generate_alias_tables ws = Ok (alias, probs) →
  ws ≠ []
  ∧ length alias = length ws
  ∧ Forall (λ a, 0 ≤ a < Z.of_nat (length ws)) alias
  ∧ length probs = length ws.
Proof.
  intros Hrun.
  destruct (decide (ws = [])) as [->|Hne]; [done|].
  destruct (Qeq_dec (py_sum ws) 0) as [Hz|Hnz].
  { by rewrite (generate_alias_tables_zero_sum _ Hne Hz) in Hrun. }
  destruct (generate_alias_tables_returns _ Hne Hnz)
    as (alias' & probs' & Hrun' & Hshape).
  rewrite Hrun in Hrun'. injection Hrun' as <- <-. done.
Qed.

Lemma generate_alias_tables_Err (ws : list Q) (e : exn) :
  generate_alias_tables ws = Err e → e = ZeroDivisionError.
Proof.
  intros Hrun.
  destruct (decide (ws = [])) as [->|Hne]; [by injection Hrun|].
  destruct (Qeq_dec (py_sum ws) 0) as [Hz|Hnz].
  { rewrite (generate_alias_tables_zero_sum _ Hne Hz) in Hrun.
    by injection Hrun. }
  destruct (generate_alias_tables_returns _ Hne Hnz)
    as (alias' & probs' & Hrun' & _).
  by rewrite Hrun in Hrun'.
Qed.

(** A successful call had well-formed tuples and non-zero parameters. *)
Lemma generate_edge_alias_tables_Ok (src_id : Z)
    (sn dn : neighbors_tuple) (p q : Q) (table : list Z * list Q) :
  generate_edge_alias_tables src_id sn dn p q = Ok table →
  length sn.1 = length sn.2 ∧ length dn.1 = length dn.2
  ∧ ¬ (p == 0)%Q ∧ ¬ (q == 0)%Q.
Proof.
  unfold generate_edge_alias_tables. rewrite check_neighbors_pair.
  destruct (decide (length sn.1 = length sn.2)) as [Hs|Hs];
    [|by rewrite bool_decide_eq_true_2].
  rewrite bool_decide_eq_false_2 by (intros ?; done).
  destruct (decide (length dn.1 = length dn.2)) as [Hd|Hd];
    [|by rewrite bool_decide_eq_true_2].
  rewrite bool_decide_eq_false_2 by (intros ?; done).
  cbn [mbind result_bind].
  destruct (Qeq_bool p 0) eqn:Ep; [done|].
  destruct (Qeq_bool q 0) eqn:Eq; [done|].
  intros _. repeat split; try done.
  - intros E%Qeq_bool_iff. congruence.
  - intros E%Qeq_bool_iff. congruence.
Qed.

(** X7.  With well-formed tuples and non-zero [p] and [q],
    [generate_edge_alias_tables] raises nothing but [ZeroDivisionError],
    which it does when [dst_neighbors] is empty, and a table it returns
    has one alias and one pseudo-probability for each neighbour of the
    destination, every alias being an index of that list. *)
Theorem edge_tables_on_valid_input (src_id : Z)
    (src_neighbors dst_neighbors : neighbors_tuple) (p q : Q) :
  length src_neighbors.1 = length src_neighbors.2 →
  length dst_neighbors.1 = length dst_neighbors.2 →
  ¬ (p == 0)%Q → ¬ (q == 0)%Q →
  let r := generate_edge_alias_tables src_id src_neighbors dst_neighbors p q in
  (dst_neighbors.1 = [] → r = Err ZeroDivisionError)
  ∧ (∀ e, r = Err e → e = ZeroDivisionError)
  ∧ (∀ alias probs, r = Ok (alias, probs) →
       length alias = length dst_neighbors.1
       ∧ length probs = length dst_neighbors.1
       ∧ Forall (λ a, 0 ≤ a < Z.of_nat (length dst_neighbors.1)) alias).
Proof.
  intros Hs Hd Hp Hq r. subst r.
  rewrite generate_edge_alias_tables_valid by done.
  set (bw := zip_with (biased_weight_spec src_id src_neighbors.1 p q)
               dst_neighbors.1 dst_neighbors.2).
  assert (length bw = length dst_neighbors.1) as Hbw.
  { unfold bw. rewrite length_zip_with. lia. }
  split; [|split].
  - intros Hnil. unfold bw. by rewrite Hnil.
  - apply generate_alias_tables_Err.
  - intros alias probs Hrun.
    apply generate_alias_tables_Ok in Hrun as (_ & Hal & Halias & Hpl).
    rewrite Hbw in Hal, Halias, Hpl. done.
Qed.

Lemma edge_tables_on_valid_input_witness :
  generate_edge_alias_tables 7 ([1; 2], [1; 1]%Q) ([], []) 2 (1 # 2)
  = Err ZeroDivisionError.
Proof.
  apply (edge_tables_on_valid_input 7 ([1; 2], [1; 1]%Q) ([], []) 2 (1 # 2));
    [reflexivity | reflexivity | discriminate | discriminate | reflexivity].
Defined.



(** * Further properties of the sampler and of the paths *)

Lemma py_getitem_Err {A} (l : list A) (i : Z) (e : exn) :
  py_getitem l i = Err e → e = IndexError.
Proof.
  unfold py_getitem. destruct (py_index _ _) as [k|];
    [destruct (l !! k)|]; by intros [= <-].
Qed.

Lemma py_getitem_nil {A} (i : Z) : py_getitem (@nil A) i = Err IndexError.
Proof.
  unfold py_getitem, py_index. simpl.
  repeat case_bool_decide; try done; lia.
Qed.

Section drawing.
Context `{RandomSource}.

(** The state that [draw_alias] leaves, whatever it returns. *)
Lemma draw_alias_state (self : AliasProb.t) (nbs : Neighbors.t)
    (seed : option Z) (w : world) :
  (AliasProb.draw_alias self nbs seed w).2
  = {| rng := (random_random (random_random (start_state seed w)).2).2;
       heap := heap w |}.
Proof.
  rewrite draw_alias_run.
  destruct (random_random (start_state seed w)) as [r s1]. simpl.
  by destruct (random_random s1) as [r' s2].
Qed.

(** A table with one entry per neighbour and aliases that are indices
    of the table makes [draw_alias] return one of the neighbours. *)
Lemma draw_alias_returns (self : AliasProb.t) (nbs : Neighbors.t)
    (seed : option Z) (w : world) (n : nat) :
  length (AliasProb.alias self) = n →
  length (AliasProb.probs self) = n →
  length (Neighbors.dst_id nbs) = n →
  (1 ≤ n)%nat →
  Forall (λ a, 0 ≤ a < Z.of_nat n) (AliasProb.alias self) →
  ∃ node w', AliasProb.draw_alias self nbs seed w = (Ok node, w')
             ∧ node ∈ Neighbors.dst_id nbs.
Proof.
  intros Ha Hp Hd Hn Hall. rewrite draw_alias_run.
  destruct (random_random (start_state seed w)) as [r s1] eqn:E1.
  destruct (random_random s1) as [r' s2] eqn:E2.
  pose proof (random_random_range (start_state seed w)) as [Hr0 Hr1].
  rewrite E1 in Hr0, Hr1. simpl in Hr0, Hr1.
  pose proof (py_int_scale r n Hr0 Hr1 Hn) as Hk.
  unfold draw_from. rewrite Ha.
  set (pick := py_int (r * inject_Z (Z.of_nat n))%Q) in *.
  destruct (py_getitem_in_range (AliasProb.probs self) pick) as (pk & -> & _);
    [lia|].
  destruct (py_getitem_in_range (AliasProb.alias self) pick) as (ak & -> & La);
    [lia|].
  destruct (py_getitem_in_range (Neighbors.dst_id nbs) pick) as (dk & -> & Ld);
    [lia|].
  assert (0 ≤ ak < Z.of_nat n) as Hak.
  { eapply Forall_lookup_1 in Hall; [|exact La]. done. }
  destruct (py_getitem_in_range (Neighbors.dst_id nbs) ak) as (da & Gda & Lda);
    [lia|].
  cbn [mbind result_bind]. rewrite Gda.
  destruct (Qltb r' pk); eexists _, _; (split; [reflexivity|]);
    by eapply list_elem_of_lookup_2.
Qed.

(** X9.  A table that [generate_alias_tables] returns for the weights
    of a well-formed [Neighbors] value fits that value: [draw_alias]
    with the two raises nothing and returns one of the neighbours. *)
Theorem node_table_draws_a_neighbor (nbs : Neighbors.t)
    (table : list Z * list Q) (seed : option Z) (w : world) :
  length (Neighbors.dst_id nbs) = length (Neighbors.dst_wt nbs) →
  generate_alias_tables (Neighbors.dst_wt nbs) = Ok table →
  ∃ node w',
    AliasProb.draw_alias {| AliasProb._data := table |} nbs seed w
    = (Ok node, w')
    ∧ node ∈ Neighbors.dst_id nbs.
Proof.
  intros Hlen Hrun. destruct table as [alias probs].
  apply generate_alias_tables_Ok in Hrun as (Hne & Hal & Halias & Hpl).
  apply (draw_alias_returns _ _ _ _ (length (Neighbors.dst_wt nbs)));
    try done.
  destruct (Neighbors.dst_wt nbs); [done|simpl; lia].
Qed.

(** X10.  A table that [generate_edge_alias_tables] returns fits the
    neighbours of the destination: [draw_alias] with the table and
    [Neighbors(dst_neighbors)] raises nothing and returns one of the
    ids of [dst_neighbors]. *)
Theorem edge_table_draws_a_neighbor (src_id : Z)
    (src_neighbors dst_neighbors : neighbors_tuple) (p q : Q)
    (table : list Z * list Q) (seed : option Z) (w : world) :
  generate_edge_alias_tables src_id src_neighbors dst_neighbors p q
  = Ok table →
  ∃ node w',
    AliasProb.draw_alias {| AliasProb._data := table |}
      {| Neighbors._data := dst_neighbors |} seed w
    = (Ok node, w')
    ∧ node ∈ dst_neighbors.1.
Proof.
  intros Hrun.
  destruct (generate_edge_alias_tables_Ok _ _ _ _ _ _ Hrun)
    as (Hs & Hd & Hp & Hq).
  rewrite generate_edge_alias_tables_valid in Hrun by done.
  destruct table as [alias probs].
  apply generate_alias_tables_Ok in Hrun as (Hne & Hal & Halias & Hpl).
  rewrite length_zip_with in Hal, Halias, Hpl.
  assert (length dst_neighbors.1 `min` length dst_neighbors.2
          = length dst_neighbors.1)%nat as E by lia.
  rewrite E in Hal, Halias, Hpl.
  apply (draw_alias_returns {| AliasProb._data := (alias, probs) |}
           {| Neighbors._data := dst_neighbors |} seed w
           (length dst_neighbors.1)); try done.
  destruct dst_neighbors as [[|x ids] [|y ws]]; simpl in *; done || lia.
Qed.

(** X11.  For a node without neighbours [draw_alias] raises
    [IndexError], whatever the table, the seed and the state; [append]
    then raises it too, before it copies the path: no list is created
    or changed. *)
Theorem dead_end_raises_IndexError `{Transport} `{!Pickle (list Z)}
    (self : RandomPath.t) (ap : AliasProb.t) (nbs : Neighbors.t)
    (seed : option Z) (w : world) :
  Neighbors.dst_id nbs = [] →
  (AliasProb.draw_alias ap nbs seed w).1 = Err IndexError
  ∧ (RandomPath.append self nbs ap seed w).1 = Err IndexError
  ∧ heap (RandomPath.append self nbs ap seed w).2 = heap w.
Proof.
  intros Hnil.
  assert ((AliasProb.draw_alias ap nbs seed w).1 = Err IndexError) as Hdraw.
  { rewrite draw_alias_run.
    destruct (random_random (start_state seed w)) as [r s1].
    destruct (random_random s1) as [r' s2]. cbn [fst].
    unfold draw_from. rewrite Hnil.
    destruct (py_getitem (AliasProb.probs ap) _) as [pk|e] eqn:Ep.
    - cbn [mbind result_bind]. destruct (Qltb r' pk).
      + apply py_getitem_nil.
      + destruct (py_getitem (AliasProb.alias ap) _) as [ak|e] eqn:Ea.
        * cbn [mbind result_bind]. apply py_getitem_nil.
        * cbn [mbind result_bind]. by rewrite (py_getitem_Err _ _ _ Ea).
    - cbn [mbind result_bind]. by rewrite (py_getitem_Err _ _ _ Ep). }
  split; [done|].
  pose proof (draw_alias_heap ap nbs seed w) as Hheap.
  unfold RandomPath.append. rewrite bind_run.
  destruct (AliasProb.draw_alias ap nbs seed w) as [[node|e] w1];
    simpl in Hdraw, Hheap; [done|].
  injection Hdraw as ->. done.
Qed.

(** X12.  A seed outlives the call: after [draw_alias] with a seed the
    process-wide generator is in a state that depends on the seed only,
    so the outcome of a following draw without a seed, on any table
    and neighbours, is fixed by that seed as well. *)
Theorem seed_fixes_the_following_draw (ap ap' : AliasProb.t)
    (nbs nbs' : Neighbors.t) (S : Z) (w1 w2 : world) :
  rng (AliasProb.draw_alias ap nbs (Some S) w1).2
  = rng (AliasProb.draw_alias ap nbs (Some S) w2).2
  ∧ (AliasProb.draw_alias ap' nbs' None
       (AliasProb.draw_alias ap nbs (Some S) w1).2).1
    = (AliasProb.draw_alias ap' nbs' None
         (AliasProb.draw_alias ap nbs (Some S) w2).2).1.
Proof.
  assert (rng (AliasProb.draw_alias ap nbs (Some S) w1).2
          = rng (AliasProb.draw_alias ap nbs (Some S) w2).2) as Hrng.
  { by rewrite !draw_alias_state. }
  split; [done|]. rewrite !(draw_alias_run ap' nbs' None).
  cbn [start_state]. rewrite Hrng.
  destruct (random_random _) as [r s1]. by destruct (random_random s1).
Qed.

End drawing.

Lemma node_table_draws_a_neighbor_witness :
  ∃ table,
    generate_alias_tables [1; 2; 3; 4]%Q = Ok table
    ∧ ∃ node w',
        @AliasProb.draw_alias lehmer {| AliasProb._data := table |}
          {| Neighbors._data := ([10; 20; 30; 40], [1; 2; 3; 4]%Q) |}
          (Some 42) (@Build_world lehmer 1 ∅)
        = (Ok node, w')
        ∧ node ∈ [10; 20; 30; 40].
Proof.
  eexists. split; [vm_compute; reflexivity|].
  apply (@node_table_draws_a_neighbor lehmer
           {| Neighbors._data := ([10; 20; 30; 40], [1; 2; 3; 4]%Q) |});
    reflexivity.
Defined.

Lemma edge_table_draws_a_neighbor_witness :
  ∃ table,
    generate_edge_alias_tables 7 ([1; 2], [1; 1]%Q) ([7; 2; 9], [1; 1; 1]%Q)
      2 (1 # 2) = Ok table
    ∧ ∃ node w',
        @AliasProb.draw_alias lehmer {| AliasProb._data := table |}
          {| Neighbors._data := ([7; 2; 9], [1; 1; 1]%Q) |}
          (Some 42) (@Build_world lehmer 1 ∅)
        = (Ok node, w')
        ∧ node ∈ [7; 2; 9].
Proof.
  eexists. split; [vm_compute; reflexivity|].
  apply (@edge_table_draws_a_neighbor lehmer 7 ([1; 2], [1; 1]%Q)
           ([7; 2; 9], [1; 1; 1]%Q) 2 (1 # 2)).
  reflexivity.
Defined.

Lemma dead_end_raises_IndexError_witness :
  (@AliasProb.draw_alias lehmer
     {| AliasProb._data := ([0], [1]%Q) |}
     {| Neighbors._data := ([], []) |}
     None (@Build_world lehmer 1 ∅)).1
  = Err IndexError.
Proof.
  apply (@dead_end_raises_IndexError lehmer memory_transport memory_pickle_list
           {| RandomPath._data := 1%positive |}).
  reflexivity.
Defined.

Lemma py_getitem_last_two {A} (l0 : list A) (a b : A) :
  py_getitem (l0 ++ [a; b]) (-2) = Ok a
  ∧ py_getitem (l0 ++ [a; b]) (-1) = Ok b.
Proof.
  unfold py_getitem, py_index. rewrite length_app. simpl length.
  rewrite !(bool_decide_eq_false_2 (0 ≤ _ < _)) by lia.
  rewrite !bool_decide_eq_true_2 by lia.
  replace (Z.to_nat (Z.of_nat (length l0 + 2) + -2)) with (length l0 + 0)%nat
    by lia.
  replace (Z.to_nat (Z.of_nat (length l0 + 2) + -1)) with (length l0 + 1)%nat
    by lia.
  rewrite !lookup_app_r by lia.
  by replace (length l0 + 0 - length l0)%nat with 0%nat by lia;
     replace (length l0 + 1 - length l0)%nat with 1%nat by lia.
Qed.

Lemma extended_last_two (l0 : list Z) (x next_vertex : Z) :
  ∃ l1, extended (l0 ++ [x]) next_vertex = l1 ++ [x; next_vertex].
Proof.
  destruct l0 as [|a [|b l0]].
  - exists []. done.
  - simpl. case_bool_decide; [by exists []|by exists [a]].
  - exists (a :: b :: l0). simpl. destruct l0; simpl; [done|].
    by rewrite <- !app_assoc.
Qed.

Section walking.
Context `{Transport} `{!Pickle (list Z)} `{RandomSource}.

Lemma last_edge_run (self : RandomPath.t) (w : world) (l : list Z) :
  heap w !! RandomPath._data self = Some l →
  RandomPath.last_edge self w
  = (a ← py_getitem l (-2); b ← py_getitem l (-1); Ok (a, b), w).
Proof.
  intros Hl. unfold RandomPath.last_edge.
  rewrite bind_run, read_run, Hl, bind_run, lift_run.
  destruct (py_getitem l (-2)) as [a|e]; [|done].
  rewrite bind_run, lift_run. by destruct (py_getitem l (-1)).
Qed.

(** X13.  [last_edge] returns the last two entries of the path and
    changes nothing; on a path with fewer than two entries it raises
    [IndexError]. *)
Theorem last_edge_is_last_two (self : RandomPath.t) (w : world) :
  (∀ l0 a b, heap w !! RandomPath._data self = Some (l0 ++ [a; b]) →
             RandomPath.last_edge self w = (Ok (a, b), w))
  ∧ (∀ l, heap w !! RandomPath._data self = Some l → (length l < 2)%nat →
          RandomPath.last_edge self w = (Err IndexError, w)).
Proof.
  split.
  - intros l0 a b Hl. rewrite (last_edge_run _ _ _ Hl).
    destruct (py_getitem_last_two l0 a b) as [-> ->]. done.
  - intros l Hl Hlen. rewrite (last_edge_run _ _ _ Hl).
    destruct l as [|a [|b l]]; [done|done|simpl in Hlen; lia].
Qed.

(** X14.  After [append] the last edge of the returned path goes from
    the last node of the input path to the node that was drawn, on the
    first step as on the others. *)
Theorem append_adds_the_last_edge (self : RandomPath.t) (nbs : Neighbors.t)
    (ap : AliasProb.t) (seed : option Z) (w w1 : world)
    (l0 : list Z) (x next_vertex : Z) :
  heap w !! RandomPath._data self = Some (l0 ++ [x]) →
  AliasProb.draw_alias ap nbs seed w = (Ok next_vertex, w1) →
  ∃ (new : RandomPath.t) (w' : world),
    RandomPath.append self nbs ap seed w = (Ok new, w')
    ∧ RandomPath.last_edge new w' = (Ok (x, next_vertex), w').
Proof.
  intros Hl Hdraw.
  destruct (append_run self nbs ap seed w w1 _ next_vertex Hdraw Hl)
    as (new & w' & Hrun & Hc & _).
  exists new, w'. split; [done|].
  destruct (extended_last_two l0 x next_vertex) as [l1 Hl1].
  rewrite Hl1 in Hc. rewrite (last_edge_run _ _ _ Hc).
  destruct (py_getitem_last_two l1 x next_vertex) as [-> ->]. done.
Qed.

(** X15.  Once started, always started: [append] on a started path
    returns the path with one more entry, which is started; and on
    the not-started path [[sentinel, start]] with [start >= 0] it
    returns a started path. *)
Theorem append_keeps_started (self : RandomPath.t) (nbs : Neighbors.t)
    (ap : AliasProb.t) (seed : option Z) (w w1 : world)
    (l : list Z) (next_vertex : Z) :
  heap w !! RandomPath._data self = Some l →
  AliasProb.draw_alias ap nbs seed w = (Ok next_vertex, w1) →
  started l ∨ (∃ sentinel start, l = [sentinel; start] ∧ sentinel < 0 ∧ 0 ≤ start) →
  ∃ (new : RandomPath.t) (w' : world) (l' : list Z),
    RandomPath.append self nbs ap seed w = (Ok new, w')
    ∧ heap w' !! RandomPath._data new = Some l'
    ∧ started l'
    ∧ (started l → l' = l ++ [next_vertex]).
Proof.
  intros Hl Hdraw Hcase.
  destruct (append_run self nbs ap seed w w1 _ next_vertex Hdraw Hl)
    as (new & w' & Hrun & Hc & _).
  exists new, w', (extended l next_vertex).
  split; [done|]. split; [done|].
  assert (started l → extended l next_vertex = l ++ [next_vertex]) as Hgrow.
  { intros [Hlen Hn]. destruct l as [|a [|b [|c l]]]; try done. simpl.
    rewrite bool_decide_eq_false_2; [done|]. intros Ha. apply Hn. eauto. }
  split; [|done].
  destruct Hcase as [Hst|(s & start & -> & Hs & Hstart)].
  - rewrite (Hgrow Hst). destruct Hst as [Hlen _]. split.
    + rewrite length_app. simpl. lia.
    + intros (a & b & E & _). apply (f_equal length) in E.
      rewrite length_app in E. simpl in E. lia.
  - simpl. rewrite bool_decide_eq_true_2 by done. split; [simpl; lia|].
    intros (a & b & [= <- <-] & Ha). lia.
Qed.

(** X16.  A negative start node is taken for the sentinel: from
    [[sentinel, start]] with [start < 0], a first [append] returns
    [[start, n1]] and a second one returns [[n1, n2]]; the start node is
    lost and the path has not grown. *)
Theorem negative_start_is_dropped (self : RandomPath.t)
    (nbs nbs2 : Neighbors.t) (ap ap2 : AliasProb.t) (seed seed2 : option Z)
    (w w1 : world) (sentinel start n1 n2 : Z) (p1 : RandomPath.t) :
  heap w !! RandomPath._data self = Some [sentinel; start] →
  sentinel < 0 → start < 0 →
  AliasProb.draw_alias ap nbs seed w = (Ok n1, w1) →
  (RandomPath.append self nbs ap seed w).1 = Ok p1 →
  (AliasProb.draw_alias ap2 nbs2 seed2
     (RandomPath.append self nbs ap seed w).2).1 = Ok n2 →
  heap (RandomPath.append self nbs ap seed w).2 !! RandomPath._data p1
  = Some [start; n1]
  ∧ path_content
      (RandomPath.append p1 nbs2 ap2 seed2
         (RandomPath.append self nbs ap seed w).2)
    = Ok [n1; n2].
Proof.
  intros Hl Hs Hstart Hdraw Hp1 Hdraw2.
  destruct (append_run self nbs ap seed w w1 _ n1 Hdraw Hl)
    as (new & w' & Hrun & Hc & _).
  rewrite Hrun in Hp1, Hdraw2 |- *. cbn [fst snd] in *.
  injection Hp1 as ->.
  simpl in Hc. rewrite bool_decide_eq_true_2 in Hc by done.
  split; [done|].
  rewrite append_content, Hdraw2, Hc. cbn [fst mbind result_bind].
  simpl. by rewrite bool_decide_eq_true_2.
Qed.

End walking.

Lemma append_adds_the_last_edge_witness :
  ∃ (new : RandomPath.t) (w' : @world lehmer),
    @RandomPath.append memory_transport memory_pickle_list lehmer
      {| RandomPath._data := 1%positive |}
      {| Neighbors._data := ([10; 20], [1; 3]%Q) |}
      {| AliasProb._data := ([1; 0], [1 # 2; 1]%Q) |}
      (Some 42) (@Build_world lehmer 1 {[ 1%positive := [-1; 5] ]})
    = (Ok new, w')
    ∧ @RandomPath.last_edge lehmer new w' = (Ok (5, 20), w').
Proof.
  apply (@append_adds_the_last_edge memory_transport memory_pickle_list lehmer
           {| RandomPath._data := 1%positive |}
           {| Neighbors._data := ([10; 20], [1; 3]%Q) |}
           {| AliasProb._data := ([1; 0], [1 # 2; 1]%Q) |}
           (Some 42) (@Build_world lehmer 1 {[ 1%positive := [-1; 5] ]})
           (@Build_world lehmer 1226992407 {[ 1%positive := [-1; 5] ]})
           [-1] 5 20); reflexivity.
Defined.

Lemma append_keeps_started_witness :
  ∃ (new : RandomPath.t) (w' : @world lehmer) (l' : list Z),
    @RandomPath.append memory_transport memory_pickle_list lehmer
      {| RandomPath._data := 1%positive |}
      {| Neighbors._data := ([10; 20], [1; 3]%Q) |}
      {| AliasProb._data := ([1; 0], [1 # 2; 1]%Q) |}
      (Some 42) (@Build_world lehmer 1 {[ 1%positive := [3; 5] ]})
    = (Ok new, w')
    ∧ heap w' !! RandomPath._data new = Some l'
    ∧ started l'
    ∧ (started [3; 5] → l' = [3; 5] ++ [20]).
Proof.
  apply (@append_keeps_started memory_transport memory_pickle_list lehmer
           {| RandomPath._data := 1%positive |}
           {| Neighbors._data := ([10; 20], [1; 3]%Q) |}
           {| AliasProb._data := ([1; 0], [1 # 2; 1]%Q) |}
           (Some 42) (@Build_world lehmer 1 {[ 1%positive := [3; 5] ]})
           (@Build_world lehmer 1226992407 {[ 1%positive := [3; 5] ]})
           [3; 5] 20); [reflexivity | reflexivity |].
  left. split; [simpl; lia|]. intros (a & b & [= <- <-] & Ha). lia.
Defined.

Lemma negative_start_is_dropped_witness :
  path_content
    (@RandomPath.append memory_transport memory_pickle_list lehmer
       {| RandomPath._data := 3%positive |}
       {| Neighbors._data := ([10; 20], [1; 3]%Q) |}
       {| AliasProb._data := ([1; 0], [1 # 2; 1]%Q) |}
       (Some 42)
       (@RandomPath.append memory_transport memory_pickle_list lehmer
          {| RandomPath._data := 1%positive |}
          {| Neighbors._data := ([10; 20], [1; 3]%Q) |}
          {| AliasProb._data := ([1; 0], [1 # 2; 1]%Q) |}
          (Some 42)
          (@Build_world lehmer 1 {[ 1%positive := [-1; -5] ]})).2)
  = Ok [20; 20].
Proof.
  refine (proj2 (@negative_start_is_dropped
                   memory_transport memory_pickle_list lehmer
                   {| RandomPath._data := 1%positive |}
                   {| Neighbors._data := ([10; 20], [1; 3]%Q) |}
                   {| Neighbors._data := ([10; 20], [1; 3]%Q) |}
                   {| AliasProb._data := ([1; 0], [1 # 2; 1]%Q) |}
                   {| AliasProb._data := ([1; 0], [1 # 2; 1]%Q) |}
                   (Some 42) (Some 42)
                   (@Build_world lehmer 1 {[ 1%positive := [-1; -5] ]})
                   (@Build_world lehmer 1226992407
                      {[ 1%positive := [-1; -5] ]})
                   (-1) (-5) 20 20 {| RandomPath._data := 3%positive |}
                   _ _ _ _ _ _));
    [reflexivity | lia | lia | reflexivity | vm_compute; reflexivity
    | vm_compute; reflexivity].
Defined.

(** * Further properties of the three classes *)

(** X17.  [items] raises nothing: it pairs the ids and the weights up
    to the length of the shorter list and drops the rest without a
    word; on a well-formed value it pairs every id with its weight. *)
Theorem items_pairs_up_to_the_shorter_list (v : Neighbors.t) :
  Neighbors.items v
  = zip (take (length (Neighbors.dst_wt v)) (Neighbors.dst_id v))
        (take (length (Neighbors.dst_id v)) (Neighbors.dst_wt v))
  ∧ length (Neighbors.items v)
    = (length (Neighbors.dst_id v) `min` length (Neighbors.dst_wt v))%nat
  ∧ (length (Neighbors.dst_id v) = length (Neighbors.dst_wt v) →
     (Neighbors.items v).*1 = Neighbors.dst_id v
     ∧ (Neighbors.items v).*2 = Neighbors.dst_wt v).
Proof.
  destruct v as [[ids ws]].
  unfold Neighbors.items, Neighbors.dst_id, Neighbors.dst_wt.
  cbn [Neighbors._data fst snd]. split; [|split].
  - revert ws. induction ids as [|x ids IH]; intros [|w ws]; simpl; try done.
    by rewrite <- IH.
  - by rewrite length_zip_with.
  - intros Hlen. split; [apply fst_zip|apply snd_zip]; lia.
Qed.


Section frames.
Context `{Transport} `{!Pickle (list Z * list Q)}.


(** X19.  A blob carries no mark of its class: the string that
    [AliasProb.serialize] returns constructs a [Neighbors] value with
    the alias list as ids and the pseudo-probabilities as weights, and
    the other way round, without any exception. *)
Theorem blobs_carry_no_class :
  (∀ v : AliasProb.t,
     ∃ s, AliasProb.serialize v = Ok s
          ∧ Neighbors.__init__ (FromStr s)
            = Ok {| Neighbors._data := AliasProb._data v |})
  ∧ (∀ v : Neighbors.t,
       ∃ s, Neighbors.serialize v = Ok s
            ∧ AliasProb.__init__ (FromStr s)
              = Ok {| AliasProb._data := Neighbors._data v |}).
Proof.
  split.
  - intros [d]. unfold AliasProb.serialize, Neighbors.__init__.
    destruct (str_encode_decode (pickle_dumps d)) as (s & Hs & He).
    exists s. split; [done|]. rewrite He, b64decode_b64encode.
    cbn [mbind result_bind]. by rewrite pickle_loads_dumps.
  - intros [d]. unfold Neighbors.serialize, AliasProb.__init__.
    destruct (str_encode_decode (pickle_dumps d)) as (s & Hs & He).
    exists s. split; [done|]. rewrite He, b64decode_b64encode.
    cbn [mbind result_bind]. by rewrite pickle_loads_dumps.
Qed.

End frames.


Lemma blobs_carry_no_class_witness :
  ∃ s, @AliasProb.serialize memory_transport memory_pickle_tuple
         {| AliasProb._data := ([1; 0], [1 # 2; 1]%Q) |} = Ok s
       ∧ @Neighbors.__init__ memory_transport memory_pickle_tuple (FromStr s)
         = Ok {| Neighbors._data := ([1; 0], [1 # 2; 1]%Q) |}.
Proof.
  destruct (@blobs_carry_no_class memory_transport memory_pickle_tuple)
    as (Hap & _).
  apply (Hap {| AliasProb._data := ([1; 0], [1 # 2; 1]%Q) |}).
Defined.

(** X20.  One hop survives the transport: the string that [serialize]
    returns for the path that [append] returned constructs, in any
    state, a path with the extended list, [[start, next_vertex]] on
    the first step and the input list followed by [next_vertex] on
    the others. *)
Theorem appended_path_round_trips `{Transport} `{!Pickle (list Z)}
    `{RandomSource} (self : RandomPath.t) (nbs : Neighbors.t)
    (ap : AliasProb.t) (seed : option Z) (w w1 : world)
    (l : list Z) (next_vertex : Z) :
  heap w !! RandomPath._data self = Some l →
  AliasProb.draw_alias ap nbs seed w = (Ok next_vertex, w1) →
  ∃ (new : RandomPath.t) (w' : world) (s : str),
    RandomPath.append self nbs ap seed w = (Ok new, w')
    ∧ RandomPath.serialize new w' = (Ok s, w')
    ∧ ∀ w0, path_content (RandomPath.__init__ (RandomPath.PathFromStr s) w0)
            = Ok (extended l next_vertex).
Proof.
  intros Hl Hdraw.
  destruct (append_run self nbs ap seed w w1 l next_vertex Hdraw Hl)
    as (new & w' & Hrun & Hc & _).
  unfold RandomPath.serialize.
  destruct (str_encode_decode (pickle_dumps (extended l next_vertex)))
    as (s & Hs & He).
  exists new, w', s. split; [done|]. split.
  - by rewrite bind_run, read_run, Hc, lift_run, Hs.
  - intros w0. unfold RandomPath.__init__.
    rewrite bind_run, lift_run, He, b64decode_b64encode.
    rewrite bind_run, lift_run, pickle_loads_dumps.
    rewrite bind_run, alloc_run, ret_run.
    unfold path_content. cbn [heap RandomPath._data].
    by rewrite lookup_insert_eq.
Qed.

Lemma appended_path_round_trips_witness :
  ∃ (new : RandomPath.t) (w' : @world lehmer) (s : @str memory_transport),
    @RandomPath.append memory_transport memory_pickle_list lehmer
      {| RandomPath._data := 1%positive |}
      {| Neighbors._data := ([10; 20], [1; 3]%Q) |}
      {| AliasProb._data := ([1; 0], [1 # 2; 1]%Q) |}
      (Some 42) (@Build_world lehmer 1 {[ 1%positive := [-1; 5] ]})
    = (Ok new, w')
    ∧ @RandomPath.serialize memory_transport memory_pickle_list lehmer new w'
      = (Ok s, w')
    ∧ ∀ w0,
        path_content
          (@RandomPath.__init__ memory_transport memory_pickle_list lehmer
             (RandomPath.PathFromStr s) w0)
        = Ok [5; 20].
Proof.
  apply (@appended_path_round_trips memory_transport memory_pickle_list lehmer
           {| RandomPath._data := 1%positive |}
           {| Neighbors._data := ([10; 20], [1; 3]%Q) |}
           {| AliasProb._data := ([1; 0], [1 # 2; 1]%Q) |}
           (Some 42) (@Build_world lehmer 1 {[ 1%positive := [-1; 5] ]})
           (@Build_world lehmer 1226992407 {[ 1%positive := [-1; 5] ]})
           [-1; 5] 20); reflexivity.
Defined.
